(** * FeatureFlagProvider: the client-side feature-flag cache

    A shallow embedding of [FeatureFlagProvider]
    (vscode/src/commands/services/provider.ts, the feature-flag section) and
    the properties of its cache that the design document states.

    The class is asynchronous JavaScript running on one cooperative event
    loop.  Each [async] method is split at its single [await] into the part
    that runs synchronously inside the call and the continuation that runs
    when the awaited remote request settles.  The provider object, the host
    values it reads ([apiClient.endpoint], [Date.now()], [process.env]), the
    log of issued remote requests and the suspended continuations are threaded
    through a state monad.

    The flag table is a plain object used as a map.  It is described in two
    layers: first by its own properties (a finite map from endpoint to
    record), which is all there is to it as long as no endpoint is named
    like a member of [Object.prototype]; then as a JavaScript object with
    its prototype chain, where the methods are given again and shown to
    agree with the first layer under that condition, and where an endpoint
    such as [__proto__] can be followed outside the table. *)

From stdpp Require Import gmap strings list fin_maps.
From Stdlib Require Import ZArith Lia Ascii.

Local Open Scope Z_scope.

(** ** Data model *)

(** [enum FeatureFlag]: a closed set of tags, each one a plain string. *)
Inductive FeatureFlag : Type :=
  | TestFlagDoNotUse
  | CodyAutocompleteTracing
  | CodyAutocompleteStarCoderHybrid
  | CodyAutocompleteStarCoder16B
  | CodyAutocompleteLlamaCode13B
  | CodyAutocompleteContextBfgMixed
  | CodyAutocompleteContextNewJaccardSimilarity
  | CodyAutocompleteUserLatency
  | CodyAutocompleteDynamicMultilineCompletions
  | CodyAutocompleteEagerCancellation
  | CodyAutocompleteHotStreak
  | CodyAutocompleteFastPath
  | CodyAutocompleteSingleMultilineRequest
  | CodyProJetBrains
  | UseSscForCodySubscription
  | CodyProTrialEnded
  | CodyChatMockTest
  | CodyCommandHints.

(** The string a member of the enum stands for; it is the key used in the
    per-endpoint record. *)
Definition FeatureFlag_value (f : FeatureFlag) : string :=
  match f with
  | TestFlagDoNotUse => "test-flag-do-not-use"
  | CodyAutocompleteTracing => "cody-autocomplete-tracing"
  | CodyAutocompleteStarCoderHybrid => "cody-autocomplete-default-starcoder-hybrid"
  | CodyAutocompleteStarCoder16B => "cody-autocomplete-default-starcoder-16b"
  | CodyAutocompleteLlamaCode13B => "cody-autocomplete-llama-code-13b"
  | CodyAutocompleteContextBfgMixed => "cody-autocomplete-context-bfg-mixed"
  | CodyAutocompleteContextNewJaccardSimilarity => "cody-autocomplete-new-jaccard-similarity"
  | CodyAutocompleteUserLatency => "cody-autocomplete-user-latency"
  | CodyAutocompleteDynamicMultilineCompletions => "cody-autocomplete-dynamic-multiline-completions"
  | CodyAutocompleteEagerCancellation => "cody-autocomplete-eager-cancellation"
  | CodyAutocompleteHotStreak => "cody-autocomplete-hot-streak"
  | CodyAutocompleteFastPath => "cody-autocomplete-fast-path"
  | CodyAutocompleteSingleMultilineRequest => "cody-autocomplete-single-multiline-request"
  | CodyProJetBrains => "cody-pro-jetbrains"
  | UseSscForCodySubscription => "use-ssc-for-cody-subscription"
  | CodyProTrialEnded => "cody-pro-trial-ended"
  | CodyChatMockTest => "cody-chat-mock-test"
  | CodyCommandHints => "cody-command-hints"
  end.

(** [const ONE_HOUR = 60 * 60 * 1000] (milliseconds). *)
Definition ONE_HOUR : Z := 60 * 60 * 1000.

(** The two private fields of the class.  [featureFlags] is a
    [Record<string, Record<string, boolean>>]: endpoint, then flag name.
    The finite map holds the own properties of the table, each one a record
    with its own flags; what a lookup finds beyond them, along the prototype
    chain, is added by [JsSystem] below.
    [lastUpdated] holds a [Date.now()] reading: an integer number of
    milliseconds, far below 2^53, so [Z] arithmetic is the subtraction the
    code performs. *)
Record FeatureFlagProvider : Type := mkProvider {
  featureFlags : gmap string (gmap string bool);
  lastUpdated : Z
}.

(** What the provider reads from its surroundings: [this.apiClient.endpoint],
    the clock behind [Date.now()], and
    [process.env.BENCHMARK_DISABLE_FEATURE_FLAGS] ([None] when the variable
    is not defined). *)
Record Host : Type := mkHost {
  endpoint : string;
  now : Z;
  BENCHMARK_DISABLE_FEATURE_FLAGS : option string
}.

(** The two requests the provider sends through [apiClient]. *)
Inductive RemoteCall : Type :=
  | apiClient_evaluateFeatureFlag (flagName : FeatureFlag)
  | apiClient_getEvaluatedFeatureFlags.

(** How a promise settles. *)
Inductive Settlement (A : Type) : Type :=
  | Fulfilled (a : A)
  | Rejected (reason : string).
Arguments Fulfilled {A} a.
Arguments Rejected {A} reason.

(** A promise handed to a caller: already settled inside the call, or
    pending on the remote request with the given number. *)
Inductive Promise (A : Type) : Type :=
  | Settled (r : Settlement A)
  | Pending (request : nat).
Arguments Settled {A} r.
Arguments Pending {A} request.

(** [boolean | null | Error], the value of [apiClient.evaluateFeatureFlag]. *)
Inductive EvaluatedFlag : Type :=
  | flag_boolean (b : bool)
  | flag_null
  | flag_Error (message : string).

(** [Record<string, boolean> | Error], the value of
    [apiClient.getEvaluatedFeatureFlags].  Every response is a record of its
    own: the client builds it from the response body, and nothing but the
    provider holds it afterwards. *)
Inductive EvaluatedFlags : Type :=
  | flags_record (data : gmap string bool)
  | flags_Error (message : string).

(** The rest of an [async] body, suspended at its [await], with the locals
    it captured. *)
Inductive Continuation : Type :=
  | evaluateFeatureFlag_awaiting (endpoint : string) (flagName : FeatureFlag)
  | refreshFeatureFlags_awaiting (endpoint : string).

(** The whole system: the provider instance ([this]), the host, every remote
    request issued so far (a request's number is its position in this log),
    and the continuations waiting for a request to settle. *)
Record System : Type := mkSystem {
  this : FeatureFlagProvider;
  host : Host;
  requests : list RemoteCall;
  awaiting : gmap nat Continuation
}.

(** ** The state monad of the event loop *)

Definition M (A : Type) : Type := System → A * System.

Definition ret {A} (a : A) : M A := λ s, (a, s).
Definition bind {A B} (c : M A) (k : A → M B) : M B :=
  λ s, let '(a, s') := c s in k a s'.

Declare Scope m_scope.
Delimit Scope m_scope with M.
Notation "x <- c ;; k" := (bind c (λ x, k))
  (at level 100, c at next level, right associativity) : m_scope.
Notation "c ;;; k" := (bind c (λ _, k))
  (at level 100, right associativity) : m_scope.
Local Open Scope m_scope.

Definition get_this : M FeatureFlagProvider := λ s, (this s, s).

Definition set_this (p : FeatureFlagProvider) : M unit :=
  λ s, (tt, mkSystem p (host s) (requests s) (awaiting s)).

(** [this.featureFlags = t] *)
Definition assign_featureFlags (t : gmap string (gmap string bool)) : M unit :=
  p <- get_this ;; set_this (mkProvider t (lastUpdated p)).

(** [this.lastUpdated = t] *)
Definition assign_lastUpdated (t : Z) : M unit :=
  p <- get_this ;; set_this (mkProvider (featureFlags p) t).

(** [this.featureFlags[endpoint] = record] *)
Definition assign_endpoint_record (e : string) (record : gmap string bool) : M unit :=
  p <- get_this ;; assign_featureFlags (<[e := record]> (featureFlags p)).

(** [this.featureFlags[endpoint][flagName] = b]: an update in place of the
    record stored for the endpoint.  The code only reaches this assignment
    with a record present (it creates one just before when there is none). *)
Definition assign_flag (e : string) (flagName : FeatureFlag) (b : bool) : M unit :=
  p <- get_this ;;
  assign_featureFlags (alter (<[FeatureFlag_value flagName := b]>) e (featureFlags p)).

Definition apiClient_endpoint : M string := λ s, (endpoint (host s), s).
Definition Date_now : M Z := λ s, (now (host s), s).
Definition process_env_BENCHMARK_DISABLE_FEATURE_FLAGS : M (option string) :=
  λ s, (BENCHMARK_DISABLE_FEATURE_FLAGS (host s), s).

(** Send a remote request and suspend on it: the request is appended to the
    log, the continuation is parked under the request's number. *)
Definition await (call : RemoteCall) (k : Continuation) : M nat :=
  λ s, let id := length (requests s) in
       (id, mkSystem (this s) (host s) (requests s ++ [call]) (<[id := k]> (awaiting s))).

(** ** Helpers of the surrounding code base *)

(** JavaScript truthiness of an environment variable: defined and not the
    empty string. *)
Definition truthy (v : option string) : bool :=
  match v with
  | Some s => negb (String.eqb s "")
  | None => false
  end.

(** Modelled from the spec: [isError] (imported from [../utils]) tells the
    [Error] alternative of a remote result from its value. *)
Definition isError_flag (value : EvaluatedFlag) : bool :=
  match value with flag_Error _ => true | _ => false end.

Definition isError_flags (data : EvaluatedFlags) : bool :=
  match data with flags_Error _ => true | _ => false end.

(** [value === null] *)
Definition is_null (value : EvaluatedFlag) : bool :=
  match value with flag_null => true | _ => false end.

(** Type narrowing: what a remote result is once the [null] and [Error]
    alternatives are excluded.  The other branches are never reached by the
    code below. *)
Definition as_boolean (value : EvaluatedFlag) : bool :=
  match value with flag_boolean b => b | _ => false end.

Definition as_record (data : EvaluatedFlags) : gmap string bool :=
  match data with flags_record record => record | flags_Error _ => ∅ end.

(** Modelled from the spec: [wrapInActiveSpan] (imported from [../tracing])
    runs the operation under a named span and passes its return value and
    error through unchanged. *)
Definition wrapInActiveSpan {A} (name : string) (fn : M A) : M A := fn.

(** ** The methods of [FeatureFlagProvider] *)

(** [new FeatureFlagProvider(apiClient)]: an empty table, [lastUpdated = 0]. *)
Definition new_FeatureFlagProvider : FeatureFlagProvider := mkProvider ∅ 0.

(** [private async refreshFeatureFlags()], up to its [await]: the endpoint is
    captured and the bulk request goes out. *)
Definition refreshFeatureFlags : M (Promise unit) :=
  wrapInActiveSpan "FeatureFlagProvider.refreshFeatureFlags" (
    endpoint <- apiClient_endpoint ;;
    id <- await apiClient_getEvaluatedFeatureFlags (refreshFeatureFlags_awaiting endpoint) ;;
    ret (Pending id)).

(** ... and after it.  A rejected request ends the body at the [await]:
    there is no [try] around it, so the method's promise rejects and neither
    assignment runs. *)
Definition refreshFeatureFlags_resume (endpoint : string)
    (settled : Settlement EvaluatedFlags) : M (Settlement unit) :=
  match settled with
  | Rejected reason => ret (Rejected reason)
  | Fulfilled data =>
      assign_endpoint_record endpoint
        (if isError_flags data then ∅ else as_record data) ;;;
      t <- Date_now ;;
      assign_lastUpdated t ;;;
      ret (Fulfilled tt)
  end.

(** [public getFromCache(flagName, endpoint = this.apiClient.endpoint)].
    [void this.refreshFeatureFlags()] runs the refresh up to its [await] and
    drops the promise, so that however the refresh ends, nothing of it comes
    back to this call; the read that follows sees the table as it was. *)
Definition getFromCache (flagName : FeatureFlag) (endpoint : option string)
    : M (option bool) :=
  endpoint <- match endpoint with Some e => ret e | None => apiClient_endpoint end ;;
  t <- Date_now ;;
  p <- get_this ;;
  (if bool_decide (t - lastUpdated p > ONE_HOUR)
   then _ <- refreshFeatureFlags ;; ret tt
   else ret tt) ;;;
  p <- get_this ;;
  ret (featureFlags p !! endpoint ≫= (.!! FeatureFlag_value flagName)).

(** [public getExposedExperiments(endpoint = this.apiClient.endpoint)], on
    the own properties of the table; [js_getExposedExperiments] is the method
    on the table as an object. *)
Definition getExposedExperiments (endpoint : option string) : M (gmap string bool) :=
  endpoint <- match endpoint with Some e => ret e | None => apiClient_endpoint end ;;
  p <- get_this ;;
  ret (default ∅ (featureFlags p !! endpoint)).

(** [public async evaluateFeatureFlag(flagName)], up to its [await]. *)
Definition evaluateFeatureFlag (flagName : FeatureFlag) : M (Promise bool) :=
  wrapInActiveSpan ("FeatureFlagProvider.evaluateFeatureFlag." +:+ FeatureFlag_value flagName) (
    endpoint <- apiClient_endpoint ;;
    disabled <- process_env_BENCHMARK_DISABLE_FEATURE_FLAGS ;;
    if truthy disabled then ret (Settled (Fulfilled false))
    else
      cachedValue <- getFromCache flagName (Some endpoint) ;;
      match cachedValue with
      | Some b => ret (Settled (Fulfilled b))
      | None =>
          id <- await (apiClient_evaluateFeatureFlag flagName)
                      (evaluateFeatureFlag_awaiting endpoint flagName) ;;
          ret (Pending id)
      end).

(** ... and after it: create the endpoint's record if there is none, store
    [value === null || isError(value) ? false : value], return what is now
    stored.  This is the body on the own properties of the table, where
    [!this.featureFlags[endpoint]] is the absence of an own record;
    [js_evaluateFeatureFlag_resume] is the body on the table as an object,
    where the name may be found along the prototype chain. *)
Definition evaluateFeatureFlag_resume (endpoint : string) (flagName : FeatureFlag)
    (settled : Settlement EvaluatedFlag) : M (Settlement bool) :=
  match settled with
  | Rejected reason => ret (Rejected reason)
  | Fulfilled value =>
      p <- get_this ;;
      (if bool_decide (featureFlags p !! endpoint = None)
       then assign_endpoint_record endpoint ∅
       else ret tt) ;;;
      assign_flag endpoint flagName
        (if is_null value || isError_flag value then false else as_boolean value) ;;;
      p <- get_this ;;
      ret (Fulfilled (default false
             (featureFlags p !! endpoint ≫= (.!! FeatureFlag_value flagName))))
  end.

(** [public async syncAuthStatus()]: the table is replaced by an empty one,
    then the method awaits the refresh and settles as the refresh does.
    What the new table inherits, and what stays behind on [Object.prototype],
    is in [js_syncAuthStatus]. *)
Definition syncAuthStatus : M (Promise unit) :=
  assign_featureFlags ∅ ;;;
  refreshFeatureFlags.

(** ** The event loop *)

(** What the remote side answers to a request. *)
Inductive Response : Type :=
  | evaluateFeatureFlag_response (r : Settlement EvaluatedFlag)
  | getEvaluatedFeatureFlags_response (r : Settlement EvaluatedFlags).

(** How an [async] body ends once its request has settled. *)
Inductive Completion : Type :=
  | evaluateFeatureFlag_settled (r : Settlement bool)
  | refreshFeatureFlags_settled (r : Settlement unit).

(** Request [id] settles with [r]: the continuation parked under [id] is
    taken out and run.  Nothing happens when no continuation waits for [id]
    or when the answer is not one to the request that was sent. *)
Definition settle (id : nat) (r : Response) : M (option Completion) :=
  λ s,
    match awaiting s !! id, r with
    | Some (evaluateFeatureFlag_awaiting endpoint flagName), evaluateFeatureFlag_response v =>
        let s' := mkSystem (this s) (host s) (requests s) (delete id (awaiting s)) in
        (c <- evaluateFeatureFlag_resume endpoint flagName v ;;
         ret (Some (evaluateFeatureFlag_settled c))) s'
    | Some (refreshFeatureFlags_awaiting endpoint), getEvaluatedFeatureFlags_response d =>
        let s' := mkSystem (this s) (host s) (requests s) (delete id (awaiting s)) in
        (c <- refreshFeatureFlags_resume endpoint d ;;
         ret (Some (refreshFeatureFlags_settled c))) s'
    | _, _ => (None, s)
    end.

(** One turn of the event loop: a call of a public method, the settling of a
    remote request, or a change made by the host (the configured endpoint,
    the clock, the environment). *)
Inductive Event : Type :=
  | call_getFromCache (flagName : FeatureFlag) (endpoint : option string)
  | call_getExposedExperiments (endpoint : option string)
  | call_evaluateFeatureFlag (flagName : FeatureFlag)
  | call_syncAuthStatus
  | request_settles (id : nat) (r : Response)
  | host_endpoint (e : string)
  | host_clock (t : Z)
  | host_env (v : option string).

Definition set_host (h : Host) : System → System :=
  λ s, mkSystem (this s) h (requests s) (awaiting s).

Definition step (ev : Event) (s : System) : System :=
  match ev with
  | call_getFromCache flagName e => snd (getFromCache flagName e s)
  | call_getExposedExperiments e => snd (getExposedExperiments e s)
  | call_evaluateFeatureFlag flagName => snd (evaluateFeatureFlag flagName s)
  | call_syncAuthStatus => snd (syncAuthStatus s)
  | request_settles id r => snd (settle id r s)
  | host_endpoint e =>
      set_host (mkHost e (now (host s)) (BENCHMARK_DISABLE_FEATURE_FLAGS (host s))) s
  | host_clock t =>
      set_host (mkHost (endpoint (host s)) t (BENCHMARK_DISABLE_FEATURE_FLAGS (host s))) s
  | host_env v =>
      set_host (mkHost (endpoint (host s)) (now (host s)) v) s
  end.

Fixpoint run (trace : list Event) (s : System) : System :=
  match trace with
  | [] => s
  | ev :: trace' => run trace' (step ev s)
  end.

(** A freshly constructed provider in a given host: nothing cached, nothing
    in flight. *)
Definition boot (h : Host) : System := mkSystem new_FeatureFlagProvider h [] ∅.

(** The value [getFromCache(flagName, endpoint)] returns in state [s]. *)
Definition cached (s : System) (flagName : FeatureFlag) (e : string) : option bool :=
  fst (getFromCache flagName (Some e) s).

(** The record [getExposedExperiments(endpoint)] returns in state [s]. *)
Definition exposed (s : System) (e : string) : gmap string bool :=
  fst (getExposedExperiments (Some e) s).

(** ** Vocabulary for the properties *)

(** What a settled single-flag evaluation stores, and what a settled bulk
    fetch stores. *)
Definition stored_flag (value : EvaluatedFlag) : bool :=
  if is_null value || isError_flag value then false else as_boolean value.

Definition stored_record (data : EvaluatedFlags) : gmap string bool :=
  if isError_flags data then ∅ else as_record data.

(** The entry of the table for endpoint [e] and flag key [k]:
    [this.featureFlags[e]?.[k]]. *)
Definition entry (s : System) (e k : string) : option bool :=
  featureFlags (this s) !! e ≫= (.!! k).

(** The endpoint a suspended body captured before its [await]. *)
Definition captured_endpoint (k : Continuation) : string :=
  match k with
  | evaluateFeatureFlag_awaiting e _ => e
  | refreshFeatureFlags_awaiting e => e
  end.

(** The event is the settling of some request / of request [id]. *)
Definition is_settling (ev : Event) : bool :=
  match ev with request_settles _ _ => true | _ => false end.

Definition settles (id : nat) (ev : Event) : bool :=
  match ev with request_settles id' _ => bool_decide (id' = id) | _ => false end.

(** The event is a [getFromCache] call or the clock moving: the events of a
    sequence of cached reads spread over time, with no write in between. *)
Definition is_cached_read (ev : Event) : bool :=
  match ev with
  | call_getFromCache _ _ => true
  | host_clock _ => true
  | _ => false
  end.

(** Number of [getFromCache] calls in a trace that find the cache stale,
    given the clock and [lastUpdated] at its start ([lastUpdated] does not
    move while nothing is written). *)
Fixpoint stale_calls (trace : list Event) (clock last : Z) : nat :=
  match trace with
  | [] => 0%nat
  | call_getFromCache _ _ :: trace' =>
      if bool_decide (clock - last > ONE_HOUR)
      then S (stale_calls trace' clock last)
      else stale_calls trace' clock last
  | host_clock t :: trace' => stale_calls trace' t last
  | _ :: trace' => stale_calls trace' clock last
  end.

(** The history of one entry (endpoint [e], flag key [f]), read off the
    events alone.  An entry is written by a single-flag evaluation for it
    that settles with a value, and by a bulk fetch for [e] that settles with
    a record holding [f]. *)
Definition populates (s : System) (ev : Event) (e f : string) : bool :=
  match ev with
  | request_settles id r =>
      match awaiting s !! id, r with
      | Some (evaluateFeatureFlag_awaiting e' f'),
        evaluateFeatureFlag_response (Fulfilled _) =>
          bool_decide (e' = e) && bool_decide (FeatureFlag_value f' = f)
      | Some (refreshFeatureFlags_awaiting e'),
        getEvaluatedFeatureFlags_response (Fulfilled d) =>
          bool_decide (e' = e) && bool_decide (is_Some (stored_record d !! f))
      | _, _ => false
      end
  | _ => false
  end.

(** An entry is erased by [syncAuthStatus], and by a bulk fetch for [e] that
    settles with an error value or with a record that lacks [f]. *)
Definition erases (s : System) (ev : Event) (e f : string) : bool :=
  match ev with
  | call_syncAuthStatus => true
  | request_settles id r =>
      match awaiting s !! id, r with
      | Some (refreshFeatureFlags_awaiting e'),
        getEvaluatedFeatureFlags_response (Fulfilled d) =>
          bool_decide (e' = e) && bool_decide (stored_record d !! f = None)
      | _, _ => false
      end
  | _ => false
  end.

(** Whether the entry is populated after a trace, [before] telling whether
    it was at the start. *)
Fixpoint populated (trace : list Event) (s : System) (e f : string) (before : bool) : bool :=
  match trace with
  | [] => before
  | ev :: trace' =>
      populated trace' (step ev s) e f
        (if populates s ev e f then true
         else if erases s ev e f then false
         else before)
  end.



(** Request numbers are positions in the log, so every parked continuation
    has a number below the length of the log. *)
Definition well_numbered (s : System) : Prop :=
  ∀ id k, awaiting s !! id = Some k → (id < length (requests s))%nat.

(** ** Scenarios *)

(** Hosts and traces used to run the model on concrete inputs. *)
Definition host_a : Host := mkHost "https://a" 1700000000000 None.

Definition host_benchmark : Host := mkHost "https://a" 1700000000000 (Some "1").

Definition jetbrains_on : EvaluatedFlags :=
  flags_record {[ "cody-pro-jetbrains" := true ]}.

(** A provider that has cached a flag and has a refresh in flight. *)
Definition warm_trace : list Event :=
  [ call_evaluateFeatureFlag CodyProJetBrains;
    request_settles 1 (evaluateFeatureFlag_response (Fulfilled (flag_boolean true))) ].

Definition warm : System := run warm_trace (boot host_a).

Definition warm_benchmark : System := step (host_env (Some "1")) warm.





(** The refresh in flight in [warm] fails with an error value. *)
Definition refresh_failed : list Event :=
  warm_trace
  ++ [ request_settles 0 (getEvaluatedFeatureFlags_response
                            (Fulfilled (flags_Error "HTTP 500"))) ].



(** Two cached reads in a row on a provider whose cache is stale. *)
Definition two_reads : list Event :=
  [ call_getFromCache CodyProJetBrains None;
    call_getFromCache CodyCommandHints None ].

(** The bulk result of the second end-to-end scenario of the design
    document. *)
Definition flags_xy : EvaluatedFlags :=
  flags_record {[ "flagX" := true; "flagY" := false ]}.

(** A refresh for endpoint a is in flight when the host moves to endpoint b
    and calls [syncAuthStatus]; the old refresh settles while
    [syncAuthStatus] is pending. *)
Definition refresh_lands_during_reset : list Event :=
  [ call_getFromCache CodyProJetBrains None;
    host_endpoint "https://b";
    call_syncAuthStatus;
    request_settles 0 (getEvaluatedFeatureFlags_response (Fulfilled jetbrains_on)) ].

Definition during_reset : System := run refresh_lands_during_reset (boot host_a).

(** ** Vocabulary for further properties of the provider *)

Definition is_bulk (call : RemoteCall) : bool :=
  match call with apiClient_getEvaluatedFeatureFlags => true | _ => false end.

Definition is_reset (ev : Event) : bool :=
  match ev with call_syncAuthStatus => true | _ => false end.

(** The clock never runs backwards along the trace, [clock] being its
    reading at the start. *)
Fixpoint clock_monotone (trace : list Event) (clock : Z) : bool :=
  match trace with
  | [] => true
  | host_clock t :: trace' => bool_decide (clock ≤ t) && clock_monotone trace' t
  | _ :: trace' => clock_monotone trace' clock
  end.

(** What one call of [evaluateFeatureFlag] sends in state [s], the switch
    being off: a bulk request when the cache is stale, then a single-flag
    request when the entry is not cached. *)
Definition evaluate_traffic (s : System) (f : FeatureFlag) : list RemoteCall :=
  (if bool_decide (now (host s) - lastUpdated (this s) > ONE_HOUR)
   then [apiClient_getEvaluatedFeatureFlags] else [])
  ++ match cached s f (endpoint (host s)) with
     | Some _ => []
     | None => [apiClient_evaluateFeatureFlag f]
     end.

(** A day of use: evaluation, a refresh, the clock moving on, a switch of
    endpoint followed by a reset. *)
Definition busy_day : list Event :=
  [ call_evaluateFeatureFlag CodyProJetBrains;
    host_clock 1700000000200;
    request_settles 0 (getEvaluatedFeatureFlags_response (Fulfilled flags_xy));
    request_settles 1 (evaluateFeatureFlag_response (Fulfilled flag_null));
    host_clock 1700003600300;
    call_getFromCache CodyCommandHints None;
    host_endpoint "https://b";
    call_evaluateFeatureFlag CodyChatMockTest;
    host_clock 1700003600400;
    request_settles 2 (getEvaluatedFeatureFlags_response (Fulfilled jetbrains_on)) ].

(** Whether the turn [ev] taken in state [s] sends a bulk request:
    [syncAuthStatus] always does; [getFromCache], and [evaluateFeatureFlag]
    with the switch off, do when the cache is stale; nothing else does. *)
Definition sends_bulk (s : System) (ev : Event) : bool :=
  match ev with
  | call_syncAuthStatus => true
  | call_getFromCache _ _ =>
      bool_decide (now (host s) - lastUpdated (this s) > ONE_HOUR)
  | call_evaluateFeatureFlag _ =>
      negb (truthy (BENCHMARK_DISABLE_FEATURE_FLAGS (host s)))
      && bool_decide (now (host s) - lastUpdated (this s) > ONE_HOUR)
  | _ => false
  end.

(** The cache is exactly one hour old. *)
Definition exactly_one_hour_old : System :=
  step (host_clock (1700000000000 + ONE_HOUR))
    (step (request_settles 0 (getEvaluatedFeatureFlags_response (Fulfilled flags_xy))) warm).

(** ** [CommandsProvider]: the command registry of the same file

    [CodyCommand] is imported from the shared library; the registry stores
    and returns commands without looking inside, so it is a type parameter.
    The VS Code registrations of the constructor and the custom command
    store are outside the class; what the class itself computes is the map
    [allCommands] and the lookups in it. *)

(** A JavaScript [Map<string, V>]: its entries in insertion order, one per
    key.  [Map_set] overwrites the value of a key already present, in place,
    and appends a new key. *)
Fixpoint Map_set {V} (k : string) (v : V) (m : list (string * V)) : list (string * V) :=
  match m with
  | [] => [(k, v)]
  | (k', v') :: m' =>
      if bool_decide (k' = k) then (k, v) :: m' else (k', v') :: Map_set k v m'
  end.

Fixpoint Map_get {V} (k : string) (m : list (string * V)) : option V :=
  match m with
  | [] => None
  | (k', v') :: m' => if bool_decide (k' = k) then Some v' else Map_get k m'
  end.

(** [new Map(entries)]: the entries are set one after the other. *)
Definition new_Map {V} (entries : list (string * V)) : list (string * V) :=
  fold_left (λ m kv, Map_set (fst kv) (snd kv) m) entries [].

(** [String([key, command])], the text the default comparator of
    [Array.prototype.sort] compares: the elements joined by a comma, a
    command object printing as [[object Object]]. *)
Definition entry_toString {V} (kv : string * V) : string :=
  fst kv +:+ ",[object Object]".

(** [Array.prototype.sort()] without a comparator: ascending by the text of
    the elements, and stable.  Elements are inserted from the right, each one
    in front of the first element that is not smaller, which is the unique
    stable ascending arrangement.  Texts are compared unit by unit; the order
    among different keys plays no part in the lookups below. *)
Fixpoint sort_insert {V} (x : string * V) (l : list (string * V)) : list (string * V) :=
  match l with
  | [] => [x]
  | y :: l' =>
      if String.ltb (entry_toString y) (entry_toString x)
      then y :: sort_insert x l'
      else x :: y :: l'
  end.

Fixpoint Array_sort {V} (l : list (string * V)) : list (string * V) :=
  match l with
  | [] => []
  | x :: l' => sort_insert x (Array_sort l')
  end.

(** The fields of the class that hold commands. *)
Record CommandsProvider (CodyCommand : Type) : Type := mkCommands {
  defaultCommands : list (string * CodyCommand);
  allCommands : list (string * CodyCommand)
}.
Arguments mkCommands {CodyCommand} _ _.
Arguments defaultCommands {CodyCommand} _.
Arguments allCommands {CodyCommand} _.

(** [protected groupCommands(customCommands = new Map())] *)
Definition groupCommands {CodyCommand} (this : CommandsProvider CodyCommand)
    (customCommands : option (list (string * CodyCommand))) : CommandsProvider CodyCommand :=
  let customCommands := default [] customCommands in
  let defaultCommands' := defaultCommands this in
  let combinedMap := new_Map defaultCommands' in
  mkCommands (defaultCommands this)
    (new_Map (Array_sort (customCommands ++ combinedMap))).

(** [public get(id)] *)
Definition CommandsProvider_get {CodyCommand} (this : CommandsProvider CodyCommand)
    (id : string) : option CodyCommand :=
  Map_get id (allCommands this).

(** The constructor, as far as the commands go: [allCommands] starts as an
    empty map and [this.groupCommands(this.defaultCommands)] fills it. *)
Definition new_CommandsProvider {CodyCommand} (vscodeDefaultCommands : list (string * CodyCommand))
    : CommandsProvider CodyCommand :=
  groupCommands (mkCommands vscodeDefaultCommands []) (Some vscodeDefaultCommands).

(** [getCustomCommands] and [refresh], once the custom command store has
    answered with [commands]. *)
Definition refresh_with {CodyCommand} (this : CommandsProvider CodyCommand)
    (commands : list (string * CodyCommand)) : CommandsProvider CodyCommand :=
  groupCommands this (Some commands).

(** Commands stand for themselves by their description in the examples. *)
Definition example_defaults : list (string * string) :=
  [ ("ask", "Ask a question"); ("edit", "Edit code"); ("test", "Generate tests") ].

Definition example_custom : list (string * string) :=
  [ ("zip", "Compress"); ("edit", "My own edit"); ("commit", "Write a commit message") ].

(** ** [getContextFilesForUnitTestCommand]: test files as context

    The function awaits up to two workspace searches.  It is written as the
    tree of its interactions: each search it asks for, and how it goes on
    from the answer.  The three helpers it imports ([getSearchPatternForTestFiles],
    [isValidTestFile], and the [uri] of a context file) are parameters. *)

Inductive Awaiting (ContextFile A : Type) : Type :=
  | Return (a : A)
  | await_getWorkspaceFilesContext (globPattern excludePattern : string)
      (maxResults : Z) (k : Settlement (list ContextFile) → Awaiting ContextFile A).
Arguments Return {ContextFile A} a.
Arguments await_getWorkspaceFilesContext {ContextFile A} _ _ _ k.

Record TestFileImports (URI ContextFile : Type) : Type := mkTestFileImports {
  getSearchPatternForTestFiles : URI → bool → string;
  isValidTestFile : URI → bool;
  uri : ContextFile → URI
}.
Arguments mkTestFileImports {URI ContextFile} _ _ _.
Arguments getSearchPatternForTestFiles {URI ContextFile} _ _ _.
Arguments isValidTestFile {URI ContextFile} _ _.
Arguments uri {URI ContextFile} _ _.

(** [export async function getContextFilesForUnitTestCommand(file)].  No
    [try] surrounds the awaits, so a rejected search rejects the call. *)
Definition getContextFilesForUnitTestCommand {URI ContextFile}
    (imports : TestFileImports URI ContextFile) (file : URI)
    : Awaiting ContextFile (Settlement (list ContextFile)) :=
  let contextFiles : list ContextFile := [] in
  let excludePattern := "**/*{e2e,integration,node_modules,dist}*/**" in
  let searchInCurrentDirectoryOnly := true in
  let max := 10 in
  let curerntDirPattern :=
    getSearchPatternForTestFiles imports file searchInCurrentDirectoryOnly in
  await_getWorkspaceFilesContext curerntDirPattern excludePattern max (λ answer,
    match answer with
    | Rejected reason => Return (Rejected reason)
    | Fulfilled currentDirContext =>
        let contextFiles := contextFiles ++ currentDirContext in
        if bool_decide (length contextFiles = 0%nat) then
          let wsTestPattern :=
            getSearchPatternForTestFiles imports file (negb searchInCurrentDirectoryOnly) in
          await_getWorkspaceFilesContext wsTestPattern excludePattern (max / 2) (λ answer,
            match answer with
            | Rejected reason => Return (Rejected reason)
            | Fulfilled codebaseFiles =>
                let contextFiles := contextFiles ++ codebaseFiles in
                Return (Fulfilled
                  (filter (λ f, isValidTestFile imports (uri imports f) = true)
                     contextFiles))
            end)
        else
          Return (Fulfilled
            (filter (λ f, isValidTestFile imports (uri imports f) = true) contextFiles))
    end).

(** Running an interaction tree against a workspace: [workspace n] answers
    the [n]-th search.  The result comes with the searches made, in order. *)
Fixpoint perform {ContextFile A}
    (workspace : nat → string → string → Z → Settlement (list ContextFile))
    (n : nat) (c : Awaiting ContextFile A) : A * list (string * string * Z) :=
  match c with
  | Return a => (a, [])
  | await_getWorkspaceFilesContext globPattern excludePattern maxResults k =>
      let '(a, searches) :=
        perform workspace (S n) (k (workspace n globPattern excludePattern maxResults)) in
      (a, (globPattern, excludePattern, maxResults) :: searches)
  end.

(** A workspace keeps to [maxResults]. *)
Definition respects_maxResults {ContextFile}
    (workspace : nat → string → string → Z → Settlement (list ContextFile)) : Prop :=
  ∀ n globPattern excludePattern maxResults files,
    workspace n globPattern excludePattern maxResults = Fulfilled files →
    Z.of_nat (length files) ≤ Z.max 0 maxResults.

(** An example: files are their paths, test files end in [.test.ts], the
    pattern for a file is its own name or a glob over the workspace. *)
Definition example_imports : TestFileImports string string :=
  mkTestFileImports
    (λ file currentDirOnly, if currentDirOnly then file else "**/*.test.*")
    (λ u, bool_decide (u = "a.test.ts" ∨ u = "b.test.ts"))
    (λ f, f).

(** The current directory holds one file, which is not a test file. *)
Definition example_workspace : nat → string → string → Z → Settlement (list string) :=
  λ n globPattern excludePattern maxResults,
    if bool_decide (globPattern = "**/*.test.*")
    then Fulfilled ["a.test.ts"; "b.test.ts"]
    else Fulfilled ["readme.md"].

(** The current directory holds nothing. *)
Definition example_workspace_empty : nat → string → string → Z → Settlement (list string) :=
  λ n globPattern excludePattern maxResults,
    if bool_decide (globPattern = "**/*.test.*")
    then Fulfilled ["a.test.ts"; "notes.txt"; "b.test.ts"]
    else Fulfilled [].

(** ** [executeExplainOutput]: explaining terminal output
    (commands/execute/terminal.ts)

    Strings are texts in UTF-8; the patterns the function looks for are
    ASCII, so searching and splitting by bytes is searching and splitting by
    characters. *)

Definition LF : string := String "010"%char "".

(** [const template]: a template literal of six lines, three of which begin
    with an escaped line feed. *)
Definition template : string :=
  LF +:+ "Review and analyze this terminal output from the `{{PROCESS}}` process and summarize the key information. If this indicates an error, provide step-by-step instructions on how I can resolve this:"
  +:+ LF +:+ LF +:+ "```"
  +:+ LF +:+ LF +:+ "{{OUTPUT}}"
  +:+ LF +:+ LF +:+ "```"
  +:+ LF.

Fixpoint string_drop (n : nat) (s : string) : string :=
  match n, s with
  | O, _ => s
  | S n', String _ s' => string_drop n' s'
  | S _, EmptyString => EmptyString
  end.

(** The first occurrence of [pattern] in [s]: what precedes it and what
    follows it. *)
Fixpoint split_first (pattern s : string) : option (string * string) :=
  if String.prefix pattern s
  then Some (EmptyString, string_drop (String.length pattern) s)
  else match s with
       | EmptyString => None
       | String c s' =>
           match split_first pattern s' with
           | Some (before, after) => Some (String c before, after)
           | None => None
           end
       end.

(** [GetSubstitution] of ECMAScript for a string pattern (no capture
    groups): in the replacement text [$$] stands for a dollar sign, [$&] for
    the matched text, [$`] for the text before the match and [$'] for the
    text after it; a dollar sign followed by anything else stands for
    itself. *)
Fixpoint GetSubstitution (matched before after replacement : string) : string :=
  match replacement with
  | EmptyString => EmptyString
  | String c rest =>
      if Ascii.eqb c "$" then
        match rest with
        | EmptyString => String c EmptyString
        | String d rest' =>
            if Ascii.eqb d "$"
            then String "$" (GetSubstitution matched before after rest')
            else if Ascii.eqb d "&"
            then matched +:+ GetSubstitution matched before after rest'
            else if Ascii.eqb d "`"
            then before +:+ GetSubstitution matched before after rest'
            else if Ascii.eqb d "'"
            then after +:+ GetSubstitution matched before after rest'
            else String c (GetSubstitution matched before after rest)
        end
      else String c (GetSubstitution matched before after rest)
  end.

(** [s.replace(pattern, replacement)] with a string pattern: the first
    occurrence only. *)
Definition String_replace (s pattern replacement : string) : string :=
  match split_first pattern s with
  | None => s
  | Some (before, after) =>
      before +:+ GetSubstitution pattern before after replacement +:+ after
  end.

(** [TerminalOutputArguments] *)
Record CreationOptions : Type := mkCreationOptions {
  shellPath : option string;
  shellArgs : option (list string)
}.

Record TerminalOutputArguments : Type := mkTerminalOutputArguments {
  name : string;
  selection : option string;
  creationOptions : option CreationOptions
}.

(** What the function takes from outside: [String.prototype.trim],
    [JSON.stringify] on the creation options, and the constant
    [DefaultChatCommands.Terminal]. *)
Record TerminalImports : Type := mkTerminalImports {
  trim : string → string;
  JSON_stringify : CreationOptions → string;
  DefaultChatCommands_Terminal : string
}.

(** The calls the function makes to the services around it, with the
    arguments it builds. *)
Inductive TerminalEffect : Type :=
  | logDebug (filterLabel text : string) (args : TerminalOutputArguments)
  | telemetryService_log (eventName : string) (useCodebaseContex : bool)
      (requestID source : string)
  | telemetryRecorder_recordEvent (feature action : string) (useCodebaseContex : Z)
      (interactionID requestID source : string)
  | executeChat (text submitType : string) (contextFiles : list string)
      (addEnhancedContext : bool) (source : string).

(** [ChatCommandResult]: [{ type: 'chat', session }]. *)
Inductive ChatCommandResult (Session : Type) : Type :=
  | chat_result (session : Session).
Arguments chat_result {Session} session.

(** [export async function executeExplainOutput(args)].  [requestID] is the
    value of [uuid.v4()], and [chat] is how the awaited [executeChat]
    settles, should the function call it.  The promise of the function is
    fulfilled with [undefined] or with a chat result, or it is rejected: no
    [try] surrounds the [await], so a rejected [executeChat] rejects the
    call. *)
Definition executeExplainOutput {Session} (imports : TerminalImports) (requestID : string)
    (chat : Settlement Session) (args : TerminalOutputArguments)
    : list TerminalEffect * Settlement (option (ChatCommandResult Session)) :=
  let addEnhancedContext := false in
  let source := DefaultChatCommands_Terminal imports in
  let telemetry :=
    [ logDebug "executeExplainOutput" "executing" args;
      telemetryService_log "CodyVSCodeExtension:command:terminal:executed" false
        requestID source;
      telemetryRecorder_recordEvent "cody.command.terminal" "executed" 0
        requestID requestID source ] in
  let output := trim imports <$> selection args in
  match output with
  | None => (telemetry, Fulfilled None)
  | Some output =>
      if String.eqb output "" then (telemetry, Fulfilled None)
      else
        let prompt :=
          String_replace (String_replace template "{{PROCESS}}" (name args))
            "{{OUTPUT}}" output in
        let options :=
          JSON_stringify imports
            (default (mkCreationOptions None None) (creationOptions args)) in
        let prompt :=
          if negb (String.eqb options "")
          then prompt +:+ LF +:+ "Process options: " +:+ options
          else prompt in
        (telemetry ++ [executeChat prompt "user-newchat" [] addEnhancedContext source],
         match chat with
         | Fulfilled session => Fulfilled (Some (chat_result session))
         | Rejected reason => Rejected reason
         end)
  end.

(** The fixed parts of the prompt around the process name and the output. *)
Definition prompt_head : string :=
  LF +:+ "Review and analyze this terminal output from the `".

Definition prompt_middle : string :=
  "` process and summarize the key information. If this indicates an error, provide step-by-step instructions on how I can resolve this:"
  +:+ LF +:+ LF +:+ "```" +:+ LF +:+ LF.

Definition prompt_tail : string := LF +:+ LF +:+ "```" +:+ LF.

(** The character does not occur in the string. *)
Fixpoint lacks (c : ascii) (s : string) : bool :=
  match s with
  | EmptyString => true
  | String c' s' => negb (Ascii.eqb c' c) && lacks c s'
  end.

(** An example environment: [trim] removes spaces and line feeds at both
    ends, the creation options print as their shell path. *)
Fixpoint trim_start_example (s : string) : string :=
  match s with
  | String c s' =>
      if Ascii.eqb c " " || Ascii.eqb c "010" then trim_start_example s' else s
  | EmptyString => EmptyString
  end.

Definition example_terminal : TerminalImports :=
  mkTerminalImports
    (λ s, String.rev (trim_start_example (String.rev (trim_start_example s))))
    (λ o, "{" +:+ default "" (shellPath o) +:+ "}")
    "terminal".

Definition example_args : TerminalOutputArguments :=
  mkTerminalOutputArguments "zsh" (Some " npm ERR! code 1 ") None.

(** ** The table as a JavaScript object

    [featureFlags] is a plain object used as a map, and so are the records
    in it: a property that is not their own is looked up along the prototype
    chain.  A fresh [{}] inherits from [Object.prototype], which has eleven
    function members and the accessor [__proto__].  For an endpoint named
    like one of these, [this.featureFlags[endpoint]] is not an own record,
    and the assignments of the provider then land on the prototype of the
    table, on [Object.prototype] itself, or on one of its functions, all of
    which outlive the table.  The definitions above describe the table by
    its own properties; here the table gets its prototype, and the two
    objects outside it that the provider can write to.  Flag names are the
    members of [FeatureFlag], none of which names anything built into
    [Object.prototype], [Function.prototype] or [Boolean.prototype]. *)

(** The function members of [Object.prototype]; [constructor] is the function
    [Object]. *)
Definition Object_prototype_functions : list string :=
  [ "constructor"; "__defineGetter__"; "__defineSetter__"; "hasOwnProperty";
    "__lookupGetter__"; "__lookupSetter__"; "isPrototypeOf";
    "propertyIsEnumerable"; "toString"; "valueOf"; "toLocaleString" ].

Definition named_like_member (e : string) : bool :=
  bool_decide (e = "__proto__") || bool_decide (e ∈ Object_prototype_functions).

(** The provider with the objects around its table: [sys] holds the own
    properties of [this.featureFlags] (each one a record) and the rest of the
    system; [table_prototype] is the prototype of [this.featureFlags] when it
    is no longer [Object.prototype] but a record put there by an assignment
    to [__proto__]; [Object_prototype] holds the flags written onto
    [Object.prototype], and [member_functions] those written onto its
    function members, by member name. *)
Record JsSystem : Type := mkJs {
  sys : System;
  table_prototype : option (gmap string bool);
  Object_prototype : gmap string bool;
  member_functions : gmap string (gmap string bool)
}.

(** What [this.featureFlags[endpoint]] evaluates to. *)
Inductive Found : Type :=
  | found_undefined
  | found_boolean (b : bool)
  | found_record (e : string)
  | found_table_prototype
  | found_Object_prototype
  | found_function (m : string).

(** [Get] on the table: own property, then the prototype chain.  On
    [Object.prototype] the accessor [__proto__] answers with the prototype of
    the table. *)
Definition lookup_table (js : JsSystem) (e : string) : Found :=
  match featureFlags (this (sys js)) !! e with
  | Some _ => found_record e
  | None =>
      match table_prototype js ≫= (.!! e) with
      | Some b => found_boolean b
      | None =>
          if bool_decide (e = "__proto__") then
            match table_prototype js with
            | Some _ => found_table_prototype
            | None => found_Object_prototype
            end
          else if bool_decide (e ∈ Object_prototype_functions) then found_function e
          else match Object_prototype js !! e with
               | Some b => found_boolean b
               | None => found_undefined
               end
      end
  end.

(** [x?.[flagName]]: nothing on [undefined]; own flag first, then the chain
    up to [Object.prototype] (through [Function.prototype] for a function,
    through [Boolean.prototype] for a boolean). *)
Definition lookup_flag (js : JsSystem) (x : Found) (flagName : FeatureFlag) : option bool :=
  let k := FeatureFlag_value flagName in
  let own : option bool :=
    match x with
    | found_undefined => None
    | found_boolean _ => None
    | found_record e => featureFlags (this (sys js)) !! e ≫= (.!! k)
    | found_table_prototype => table_prototype js ≫= (.!! k)
    | found_Object_prototype => None
    | found_function m => member_functions js !! m ≫= (.!! k)
    end in
  match x, own with
  | found_undefined, _ => None
  | _, Some b => Some b
  | _, None => Object_prototype js !! k
  end.

(** [ToBoolean] *)
Definition ToBoolean (x : Found) : bool :=
  match x with
  | found_undefined => false
  | found_boolean b => b
  | _ => true
  end.

(** The state monad over [JsSystem]; what does not touch the table is
    lifted from [M]. *)
Definition J (A : Type) : Type := JsSystem → A * JsSystem.

Definition jret {A} (a : A) : J A := λ js, (a, js).
Definition jbind {A B} (c : J A) (k : A → J B) : J B :=
  λ js, let '(a, js') := c js in k a js'.

Declare Scope j_scope.
Delimit Scope j_scope with J.
Notation "x <- c ;; k" := (jbind c (λ x, k))
  (at level 100, c at next level, right associativity) : j_scope.
Notation "c ;;; k" := (jbind c (λ _, k))
  (at level 100, right associativity) : j_scope.

Definition lift {A} (c : M A) : J A :=
  λ js, let '(a, s') := c (sys js) in
        (a, mkJs s' (table_prototype js) (Object_prototype js) (member_functions js)).

Definition Get_table (e : string) : J Found := λ js, (lookup_table js e, js).
Definition Get_flag (x : Found) (flagName : FeatureFlag) : J (option bool) :=
  λ js, (lookup_flag js x flagName, js).

(** [this.featureFlags[endpoint] = record].  The property is created on the
    table, or overwritten there, unless the name is found as the accessor
    [__proto__] of [Object.prototype]: its setter makes the record the
    prototype of the table. *)
Definition js_assign_endpoint_record (e : string) (record : gmap string bool) : J unit :=
  λ js,
    match featureFlags (this (sys js)) !! e, table_prototype js ≫= (.!! e) with
    | None, None =>
        if bool_decide (e = "__proto__")
        then (tt, mkJs (sys js) (Some record) (Object_prototype js) (member_functions js))
        else lift (assign_endpoint_record e record) js
    | _, _ => lift (assign_endpoint_record e record) js
    end.

(** [this.featureFlags[endpoint][flagName] = b], in strict mode: the flag
    becomes an own property of whatever object [this.featureFlags[endpoint]]
    is; on a boolean or on [undefined] the assignment throws a [TypeError],
    which is returned. *)
Definition js_assign_flag (e : string) (flagName : FeatureFlag) (b : bool)
    : J (option string) :=
  λ js,
    let k := FeatureFlag_value flagName in
    match lookup_table js e with
    | found_record e' => (None, snd (lift (assign_flag e' flagName b) js))
    | found_table_prototype =>
        (None, mkJs (sys js) (<[k := b]> <$> table_prototype js)
                 (Object_prototype js) (member_functions js))
    | found_Object_prototype =>
        (None, mkJs (sys js) (table_prototype js) (<[k := b]> (Object_prototype js))
                 (member_functions js))
    | found_function m =>
        (None, mkJs (sys js) (table_prototype js) (Object_prototype js)
                 (<[m := <[k := b]> (default ∅ (member_functions js !! m))]>
                    (member_functions js)))
    | found_boolean _ => (Some "TypeError: Cannot create property on boolean", js)
    | found_undefined => (Some "TypeError: Cannot set properties of undefined", js)
    end.

Local Open Scope j_scope.

(** [wrapInActiveSpan], on [J]. *)
Definition wrapInActiveSpan_J {A} (name : string) (fn : J A) : J A := fn.

(** The methods of the class once more, on the table as an object. *)
Definition js_refreshFeatureFlags : J (Promise unit) := lift refreshFeatureFlags.

Definition js_refreshFeatureFlags_resume (endpoint : string)
    (settled : Settlement EvaluatedFlags) : J (Settlement unit) :=
  match settled with
  | Rejected reason => jret (Rejected reason)
  | Fulfilled data =>
      js_assign_endpoint_record endpoint
        (if isError_flags data then ∅ else as_record data) ;;;
      t <- lift Date_now ;;
      lift (assign_lastUpdated t) ;;;
      jret (Fulfilled tt)
  end.

Definition js_getFromCache (flagName : FeatureFlag) (endpoint : option string)
    : J (option bool) :=
  endpoint <- match endpoint with Some e => jret e | None => lift apiClient_endpoint end ;;
  t <- lift Date_now ;;
  p <- lift get_this ;;
  (if bool_decide (t - lastUpdated p > ONE_HOUR)
   then _ <- js_refreshFeatureFlags ;; jret tt
   else jret tt) ;;;
  x <- Get_table endpoint ;;
  Get_flag x flagName.

(** What [getExposedExperiments] returns: a record (its own flags; read as
    an object it also shows what lies on [Object.prototype]),
    [Object.prototype] itself, one of its functions, or [true]. *)
Inductive Exposed : Type :=
  | exposed_record (record : gmap string bool)
  | exposed_Object_prototype
  | exposed_function (m : string)
  | exposed_true.

(** [this.featureFlags[endpoint] || {}] *)
Definition js_getExposedExperiments (endpoint : option string) : J Exposed :=
  endpoint <- match endpoint with Some e => jret e | None => lift apiClient_endpoint end ;;
  x <- Get_table endpoint ;;
  λ js,
    (match x with
     | found_undefined => exposed_record ∅
     | found_boolean b => if b then exposed_true else exposed_record ∅
     | found_record e => exposed_record (default ∅ (featureFlags (this (sys js)) !! e))
     | found_table_prototype => exposed_record (default ∅ (table_prototype js))
     | found_Object_prototype => exposed_Object_prototype
     | found_function m => exposed_function m
     end, js).

Definition js_evaluateFeatureFlag (flagName : FeatureFlag) : J (Promise bool) :=
  wrapInActiveSpan_J ("FeatureFlagProvider.evaluateFeatureFlag." +:+ FeatureFlag_value flagName) (
    endpoint <- lift apiClient_endpoint ;;
    disabled <- lift process_env_BENCHMARK_DISABLE_FEATURE_FLAGS ;;
    if truthy disabled then jret (Settled (Fulfilled false))
    else
      cachedValue <- js_getFromCache flagName (Some endpoint) ;;
      match cachedValue with
      | Some b => jret (Settled (Fulfilled b))
      | None =>
          id <- lift (await (apiClient_evaluateFeatureFlag flagName)
                        (evaluateFeatureFlag_awaiting endpoint flagName)) ;;
          jret (Pending id)
      end).

Definition js_evaluateFeatureFlag_resume (endpoint : string) (flagName : FeatureFlag)
    (settled : Settlement EvaluatedFlag) : J (Settlement bool) :=
  match settled with
  | Rejected reason => jret (Rejected reason)
  | Fulfilled value =>
      x <- Get_table endpoint ;;
      (if negb (ToBoolean x)
       then js_assign_endpoint_record endpoint ∅
       else jret tt) ;;;
      thrown <- js_assign_flag endpoint flagName
                  (if is_null value || isError_flag value then false else as_boolean value) ;;
      match thrown with
      | Some error => jret (Rejected error)
      | None =>
          x <- Get_table endpoint ;;
          b <- Get_flag x flagName ;;
          jret (Fulfilled (default false b))
      end
  end.

(** [this.featureFlags = {}]: a fresh object, whose prototype is
    [Object.prototype] again. *)
Definition js_syncAuthStatus : J (Promise unit) :=
  lift (assign_featureFlags ∅) ;;;
  (λ js, (tt, mkJs (sys js) None (Object_prototype js) (member_functions js))) ;;;
  js_refreshFeatureFlags.

Definition js_settle (id : nat) (r : Response) : J (option Completion) :=
  λ js,
    let s := sys js in
    let js' :=
      mkJs (mkSystem (this s) (host s) (requests s) (delete id (awaiting s)))
        (table_prototype js) (Object_prototype js) (member_functions js) in
    match awaiting s !! id, r with
    | Some (evaluateFeatureFlag_awaiting endpoint flagName), evaluateFeatureFlag_response v =>
        (c <- js_evaluateFeatureFlag_resume endpoint flagName v ;;
         jret (Some (evaluateFeatureFlag_settled c))) js'
    | Some (refreshFeatureFlags_awaiting endpoint), getEvaluatedFeatureFlags_response d =>
        (c <- js_refreshFeatureFlags_resume endpoint d ;;
         jret (Some (refreshFeatureFlags_settled c))) js'
    | _, _ => (None, js)
    end.

Definition js_step (ev : Event) (js : JsSystem) : JsSystem :=
  match ev with
  | call_getFromCache flagName e => snd (js_getFromCache flagName e js)
  | call_getExposedExperiments e => snd (js_getExposedExperiments e js)
  | call_evaluateFeatureFlag flagName => snd (js_evaluateFeatureFlag flagName js)
  | call_syncAuthStatus => snd (js_syncAuthStatus js)
  | request_settles id r => snd (js_settle id r js)
  | _ =>
      mkJs (step ev (sys js)) (table_prototype js) (Object_prototype js)
        (member_functions js)
  end.

Fixpoint js_run (trace : list Event) (js : JsSystem) : JsSystem :=
  match trace with
  | [] => js
  | ev :: trace' => js_run trace' (js_step ev js)
  end.

Local Close Scope j_scope.

(** A system in which nothing has been written outside the table, and a
    freshly constructed provider. *)
Definition untouched_objects (s : System) : JsSystem := mkJs s None ∅ ∅.

Definition js_boot (h : Host) : JsSystem := untouched_objects (boot h).

Definition js_cached (js : JsSystem) (flagName : FeatureFlag) (e : string) : option bool :=
  fst (js_getFromCache flagName (Some e) js).

Definition js_exposed (js : JsSystem) (e : string) : Exposed :=
  fst (js_getExposedExperiments (Some e) js).

(** No endpoint in use is named like a member of [Object.prototype]: not
    the configured one, and none captured by a suspended body. *)
Definition well_named (s : System) : Prop :=
  named_like_member (endpoint (host s)) = false
  ∧ ∀ id k, awaiting s !! id = Some k → named_like_member (captured_endpoint k) = false.

(** The event does not configure such an endpoint. *)
Definition plain_event (ev : Event) : bool :=
  match ev with
  | host_endpoint e => negb (named_like_member e)
  | _ => true
  end.

(** ** Vocabulary and scenarios for the table as an object *)

(** Events that write the entry (endpoint [e], flag [f]) or take it away:
    [syncAuthStatus], a bulk fetch for [e] settling with a value, and a
    single-flag evaluation for the entry settling with a value. *)
Definition rewrites (s : System) (ev : Event) (e : string) (f : FeatureFlag) : bool :=
  match ev with
  | call_syncAuthStatus => true
  | request_settles id r =>
      match awaiting s !! id, r with
      | Some (refreshFeatureFlags_awaiting e'),
        getEvaluatedFeatureFlags_response (Fulfilled _) =>
          bool_decide (e' = e)
      | Some (evaluateFeatureFlag_awaiting e' f'),
        evaluateFeatureFlag_response (Fulfilled _) =>
          bool_decide (e' = e)
          && bool_decide (FeatureFlag_value f' = FeatureFlag_value f)
      | _, _ => false
      end
  | _ => false
  end.

(** No event of the trace, run from [s], rewrites the entry. *)
Fixpoint kept (trace : list Event) (s : System) (e : string) (f : FeatureFlag) : bool :=
  match trace with
  | [] => true
  | ev :: trace' => negb (rewrites s ev e f) && kept trace' (step ev s) e f
  end.

(** The event is an answer of the remote side that says [true] for the
    entry (endpoint [e], flag [f]): the request of a single-flag evaluation
    of [f] made under [e] settles with [true], or the request of a bulk fetch
    made under [e] settles with a record holding [f] as [true]. *)
Definition says_true (s : System) (ev : Event) (e : string) (f : FeatureFlag) : bool :=
  match ev with
  | request_settles id r =>
      match awaiting s !! id, r with
      | Some (evaluateFeatureFlag_awaiting e' f'),
        evaluateFeatureFlag_response (Fulfilled v) =>
          bool_decide (e' = e)
          && bool_decide (FeatureFlag_value f' = FeatureFlag_value f)
          && stored_flag v
      | Some (refreshFeatureFlags_awaiting e'),
        getEvaluatedFeatureFlags_response (Fulfilled d) =>
          bool_decide (e' = e)
          && bool_decide (stored_record d !! FeatureFlag_value f = Some true)
      | _, _ => false
      end
  | _ => false
  end.

(** No event of the trace, run from [s], says [true] for the entry. *)
Fixpoint unanswered (trace : list Event) (s : System) (e : string) (f : FeatureFlag) : bool :=
  match trace with
  | [] => true
  | ev :: trace' => negb (says_true s ev e f) && unanswered trace' (step ev s) e f
  end.

(** A host whose configured endpoint is the string [__proto__]. *)
Definition host_proto : Host := mkHost "__proto__" 1700000000000 None.

(** A flag is evaluated under the endpoint [__proto__] and the answer is
    [true]; the host then moves to endpoint c, where another flag is
    evaluated and answered [false], which gives endpoint c a record of its
    own. *)
Definition prototype_leak : list Event :=
  [ call_evaluateFeatureFlag CodyProJetBrains;
    request_settles 1 (evaluateFeatureFlag_response (Fulfilled (flag_boolean true)));
    host_endpoint "https://c";
    call_evaluateFeatureFlag CodyCommandHints;
    request_settles 3 (evaluateFeatureFlag_response (Fulfilled (flag_boolean false))) ].

(** * Properties *)

(** ** What each method does to the system *)

Section Methods.
Implicit Types (s : System) (e : string) (f : FeatureFlag) (id : nat).

Lemma alter_present (g : gmap string bool → gmap string bool)
    (t : gmap string (gmap string bool)) e m :
  t !! e = Some m → alter g e t = <[e := g m]> t.
Proof.
  intros Hm. apply map_eq. intros e'.
  rewrite lookup_alter, lookup_insert.
  destruct (decide (e = e')) as [->|]; [by rewrite Hm|done].
Qed.

(** The refresh, up to its [await]: one bulk request more, one parked
    continuation more, the provider as it was. *)
Lemma refreshFeatureFlags_spec s :
  refreshFeatureFlags s =
    (Pending (length (requests s)),
     mkSystem (this s) (host s)
       (requests s ++ [apiClient_getEvaluatedFeatureFlags])
       (<[length (requests s) := refreshFeatureFlags_awaiting (endpoint (host s))]>
          (awaiting s))).
Proof. reflexivity. Qed.

Lemma getFromCache_value s f e :
  fst (getFromCache f (Some e) s)
  = featureFlags (this s) !! e ≫= (.!! FeatureFlag_value f).
Proof.
  unfold getFromCache, bind, ret, Date_now, get_this. simpl.
  by destruct (bool_decide _).
Qed.

Lemma getFromCache_default_value s f :
  fst (getFromCache f None s) = fst (getFromCache f (Some (endpoint (host s))) s).
Proof.
  unfold getFromCache, bind, ret, Date_now, get_this, apiClient_endpoint. simpl.
  by destruct (bool_decide _).
Qed.

Lemma getFromCache_state s f (oe : option string) :
  snd (getFromCache f oe s)
  = if bool_decide (now (host s) - lastUpdated (this s) > ONE_HOUR)
    then snd (refreshFeatureFlags s) else s.
Proof.
  unfold getFromCache, bind, ret, Date_now, get_this, apiClient_endpoint.
  destruct oe; simpl; by destruct (bool_decide _).
Qed.

Lemma getExposedExperiments_spec s (oe : option string) :
  getExposedExperiments oe s
  = (default ∅ (featureFlags (this s)
                  !! match oe with Some e => e | None => endpoint (host s) end), s).
Proof. by destruct oe. Qed.

Lemma evaluateFeatureFlag_disabled s f :
  truthy (BENCHMARK_DISABLE_FEATURE_FLAGS (host s)) = true →
  evaluateFeatureFlag f s = (Settled (Fulfilled false), s).
Proof.
  intros Hk.
  unfold evaluateFeatureFlag, wrapInActiveSpan, bind, ret, apiClient_endpoint,
    process_env_BENCHMARK_DISABLE_FEATURE_FLAGS.
  by rewrite Hk.
Qed.

(** With the switch off, [evaluateFeatureFlag] is a cached read followed,
    on a miss, by one single-flag request. *)
Lemma evaluateFeatureFlag_enabled s f :
  truthy (BENCHMARK_DISABLE_FEATURE_FLAGS (host s)) = false →
  evaluateFeatureFlag f s =
    let s1 := snd (getFromCache f (Some (endpoint (host s))) s) in
    match cached s f (endpoint (host s)) with
    | Some b => (Settled (Fulfilled b), s1)
    | None =>
        (Pending (length (requests s1)),
         mkSystem (this s1) (host s1)
           (requests s1 ++ [apiClient_evaluateFeatureFlag f])
           (<[length (requests s1) := evaluateFeatureFlag_awaiting (endpoint (host s)) f]>
              (awaiting s1)))
    end.
Proof.
  intros Hk. unfold cached.
  unfold evaluateFeatureFlag, wrapInActiveSpan, bind, apiClient_endpoint,
    process_env_BENCHMARK_DISABLE_FEATURE_FLAGS.
  rewrite Hk.
  destruct (getFromCache f (Some (endpoint (host s))) s) as [[b|] s1]; reflexivity.
Qed.

Lemma syncAuthStatus_spec s :
  syncAuthStatus s =
    (Pending (length (requests s)),
     mkSystem (mkProvider ∅ (lastUpdated (this s))) (host s)
       (requests s ++ [apiClient_getEvaluatedFeatureFlags])
       (<[length (requests s) := refreshFeatureFlags_awaiting (endpoint (host s))]>
          (awaiting s))).
Proof. reflexivity. Qed.

(** A settled bulk fetch replaces the record of the captured endpoint and
    stamps [lastUpdated]; a rejected one only unparks the continuation. *)
Lemma settle_refresh_fulfilled s id e d :
  awaiting s !! id = Some (refreshFeatureFlags_awaiting e) →
  settle id (getEvaluatedFeatureFlags_response (Fulfilled d)) s =
    (Some (refreshFeatureFlags_settled (Fulfilled tt)),
     mkSystem (mkProvider (<[e := stored_record d]> (featureFlags (this s)))
                          (now (host s)))
       (host s) (requests s) (delete id (awaiting s))).
Proof. intros Hk. unfold settle. rewrite Hk. reflexivity. Qed.

Lemma settle_refresh_rejected s id e reason :
  awaiting s !! id = Some (refreshFeatureFlags_awaiting e) →
  settle id (getEvaluatedFeatureFlags_response (Rejected reason)) s =
    (Some (refreshFeatureFlags_settled (Rejected reason)),
     mkSystem (this s) (host s) (requests s) (delete id (awaiting s))).
Proof. intros Hk. unfold settle. rewrite Hk. reflexivity. Qed.

(** A settled single-flag evaluation writes one key of the captured
    endpoint's record, creating the record when there is none. *)
Lemma settle_evaluate_fulfilled s id e f v :
  awaiting s !! id = Some (evaluateFeatureFlag_awaiting e f) →
  settle id (evaluateFeatureFlag_response (Fulfilled v)) s =
    (Some (evaluateFeatureFlag_settled (Fulfilled (stored_flag v))),
     mkSystem
       (mkProvider
          (<[e := <[FeatureFlag_value f := stored_flag v]>
                    (default ∅ (featureFlags (this s) !! e))]> (featureFlags (this s)))
          (lastUpdated (this s)))
       (host s) (requests s) (delete id (awaiting s))).
Proof.
  intros Hk. unfold settle. rewrite Hk.
  unfold evaluateFeatureFlag_resume, bind, ret, get_this, assign_flag,
    assign_endpoint_record, assign_featureFlags, set_this. simpl.
  fold (stored_flag v).
  destruct (featureFlags (this s) !! e) as [m|] eqn:Hm; simpl.
  - rewrite (alter_present _ _ _ _ Hm).
    by rewrite lookup_insert_eq; simpl; rewrite lookup_insert_eq.
  - rewrite (alter_present _ _ e ∅) by apply lookup_insert_eq.
    rewrite insert_insert_eq.
    by rewrite lookup_insert_eq; simpl; rewrite lookup_insert_eq.
Qed.

Lemma settle_evaluate_rejected s id e f reason :
  awaiting s !! id = Some (evaluateFeatureFlag_awaiting e f) →
  settle id (evaluateFeatureFlag_response (Rejected reason)) s =
    (Some (evaluateFeatureFlag_settled (Rejected reason)),
     mkSystem (this s) (host s) (requests s) (delete id (awaiting s))).
Proof. intros Hk. unfold settle. rewrite Hk. reflexivity. Qed.

(** Whatever settles, the host and the request log stay as they are. *)
Lemma settle_host_requests s id r :
  host (snd (settle id r s)) = host s ∧ requests (snd (settle id r s)) = requests s.
Proof.
  destruct (awaiting s !! id) as [[e f|e]|] eqn:Hk.
  - destruct r as [[v|reason]|d].
    + by rewrite (settle_evaluate_fulfilled _ _ _ _ _ Hk).
    + by rewrite (settle_evaluate_rejected _ _ _ _ _ Hk).
    + unfold settle. by rewrite Hk.
  - destruct r as [v|[d|reason]].
    + unfold settle. by rewrite Hk.
    + by rewrite (settle_refresh_fulfilled _ _ _ _ Hk).
    + by rewrite (settle_refresh_rejected _ _ _ _ Hk).
  - unfold settle. rewrite Hk. by destruct r.
Qed.
End Methods.

(** ** The kill switch *)

Section KillSwitch.
Implicit Types (s : System) (f : FeatureFlag).

(** C8. With [BENCHMARK_DISABLE_FEATURE_FLAGS] set (a non-empty value, the
    test the code makes), [evaluateFeatureFlag] of any flag is already
    fulfilled with [false] when the call returns, and no request has gone
    to the remote evaluator: the request log and the parked continuations
    are those from before the call. *)
Theorem kill_switch_short_circuits s f :
  truthy (BENCHMARK_DISABLE_FEATURE_FLAGS (host s)) = true →
  fst (evaluateFeatureFlag f s) = Settled (Fulfilled false)
  ∧ requests (snd (evaluateFeatureFlag f s)) = requests s
  ∧ awaiting (snd (evaluateFeatureFlag f s)) = awaiting s.
Proof. intros Hk. by rewrite (evaluateFeatureFlag_disabled _ _ Hk). Qed.

Lemma kill_switch_short_circuits_witness :
  truthy (BENCHMARK_DISABLE_FEATURE_FLAGS (host (boot host_benchmark))) = true
  ∧ fst (evaluateFeatureFlag TestFlagDoNotUse (boot host_benchmark))
    = Settled (Fulfilled false).
Proof.
  split; [reflexivity|].
  apply (kill_switch_short_circuits (boot host_benchmark) TestFlagDoNotUse).
  reflexivity.
Defined.

(** C10. With the switch set, [evaluateFeatureFlag] changes nothing: the
    system after the call is the system before it (table, [lastUpdated],
    request log, parked continuations), its answer is the same whatever the
    provider holds, and every cached read answers as before; an entry that
    read as undefined still does. *)
Theorem kill_switch_leaves_state s f :
  truthy (BENCHMARK_DISABLE_FEATURE_FLAGS (host s)) = true →
  snd (evaluateFeatureFlag f s) = s
  ∧ (∀ p, fst (evaluateFeatureFlag f (mkSystem p (host s) (requests s) (awaiting s)))
          = fst (evaluateFeatureFlag f s))
  ∧ (∀ f' oe, getFromCache f' oe (snd (evaluateFeatureFlag f s)) = getFromCache f' oe s)
  ∧ (∀ e, cached s f e = None → cached (snd (evaluateFeatureFlag f s)) f e = None).
Proof.
  intros Hk. rewrite (evaluateFeatureFlag_disabled _ _ Hk).
  repeat split; try done.
  intros p. by rewrite (evaluateFeatureFlag_disabled (mkSystem p _ _ _) f Hk).
Qed.

Lemma kill_switch_leaves_state_witness :
  truthy (BENCHMARK_DISABLE_FEATURE_FLAGS (host warm_benchmark)) = true
  ∧ snd (evaluateFeatureFlag CodyChatMockTest warm_benchmark) = warm_benchmark.
Proof.
  split; [reflexivity|].
  apply (kill_switch_leaves_state warm_benchmark CodyChatMockTest).
  reflexivity.
Defined.
End KillSwitch.

(** ** Errors of the remote evaluator *)

Section RemoteErrors.
Implicit Types (s : System) (e : string) (f : FeatureFlag) (id : nat).







End RemoteErrors.

(** ** Endpoints partition the table *)

Section Partition.
Implicit Types (s : System) (e : string) (f : FeatureFlag) (id : nat).

(** Settling a request only touches the record of the endpoint its
    continuation captured. *)
Lemma settle_other_endpoint s id r k e :
  awaiting s !! id = Some k →
  captured_endpoint k ≠ e →
  featureFlags (this (snd (settle id r s))) !! e = featureFlags (this s) !! e.
Proof.
  intros Hk Hne. destruct k as [e' f'|e']; simpl in Hne.
  - destruct r as [[v|reason]|d].
    + rewrite (settle_evaluate_fulfilled _ _ _ _ _ Hk). simpl.
      by rewrite lookup_insert_ne.
    + by rewrite (settle_evaluate_rejected _ _ _ _ _ Hk).
    + unfold settle. by rewrite Hk.
  - destruct r as [v|[d|reason]].
    + unfold settle. by rewrite Hk.
    + rewrite (settle_refresh_fulfilled _ _ _ _ Hk). simpl.
      by rewrite lookup_insert_ne.
    + by rewrite (settle_refresh_rejected _ _ _ _ Hk).
Qed.

(** Among the own properties of the table, endpoints do not interfere: the
    entry read for endpoint [e2] is the one of the record stored under [e2];
    whatever settles for a continuation that captured another endpoint [e1]
    (a single-flag evaluation or a bulk fetch) leaves every such entry of
    [e2] as it was; and moving the host to another endpoint leaves the
    provider untouched. *)
Lemma own_properties_partition s id r k e1 e2 :
  awaiting s !! id = Some k →
  captured_endpoint k = e1 →
  e1 ≠ e2 →
  (∀ f, cached s f e2 = featureFlags (this s) !! e2 ≫= (.!! FeatureFlag_value f))
  ∧ (∀ f, cached (step (request_settles id r) s) f e2 = cached s f e2)
  ∧ exposed (step (request_settles id r) s) e2 = exposed s e2
  ∧ (∀ e', this (step (host_endpoint e') s) = this s)
  ∧ (∀ e' f, cached (step (host_endpoint e') s) f e1 = cached s f e1).
Proof.
  intros Hk He Hne. subst e1.
  pose proof (settle_other_endpoint s id r k e2 Hk Hne) as Hsame.
  split; [intros f; apply getFromCache_value|].
  split; [|split; [|split]].
  - intros f. unfold cached. rewrite !getFromCache_value. simpl. by rewrite Hsame.
  - unfold exposed. rewrite !getExposedExperiments_spec. simpl. by rewrite Hsame.
  - done.
  - intros e' f. unfold cached. by rewrite !getFromCache_value.
Qed.

(** The end-to-end scenario of the design document: the flag evaluated to
    [true] under endpoint a still reads [true] for endpoint a after the host
    has moved to endpoint b, and reads as undefined for endpoint b. *)
Example switch_keeps_entry :
  cached warm CodyProJetBrains "https://a" = Some true
  ∧ cached (step (host_endpoint "https://b") warm) CodyProJetBrains "https://a"
    = Some true
  ∧ fst (getFromCache CodyProJetBrains None (step (host_endpoint "https://b") warm))
    = None.
Proof. repeat split; reflexivity. Qed.



End Partition.

(** ** One turn of the event loop *)

Section Turns.
Implicit Types (s : System) (e k : string) (f : FeatureFlag) (id : nat) (ev : Event).

Lemma cached_entry s f e : cached s f e = entry s e (FeatureFlag_value f).
Proof. apply getFromCache_value. Qed.

Lemma getExposedExperiments_state s (oe : option string) :
  snd (getExposedExperiments oe s) = s.
Proof. by rewrite getExposedExperiments_spec. Qed.

Lemma getFromCache_this s f (oe : option string) :
  this (snd (getFromCache f oe s)) = this s.
Proof. rewrite getFromCache_state. by destruct (bool_decide _). Qed.

Lemma evaluateFeatureFlag_this s f : this (snd (evaluateFeatureFlag f s)) = this s.
Proof.
  destruct (truthy (BENCHMARK_DISABLE_FEATURE_FLAGS (host s))) eqn:Hk.
  { by rewrite (evaluateFeatureFlag_disabled _ _ Hk). }
  rewrite (evaluateFeatureFlag_enabled _ _ Hk). cbv zeta.
  destruct (cached s f (endpoint (host s))); simpl; apply getFromCache_this.
Qed.

(** A call that is not [syncAuthStatus], and any change made by the host,
    leaves the provider as it is; [syncAuthStatus] empties the table. *)
Lemma call_this s ev :
  is_settling ev = false →
  this (step ev s)
  = match ev with
    | call_syncAuthStatus => mkProvider ∅ (lastUpdated (this s))
    | _ => this s
    end.
Proof.
  destruct ev; simpl; rewrite ?getExposedExperiments_state; intros Hev; try done.
  - apply getFromCache_this.
  - apply evaluateFeatureFlag_this.
Qed.

(** The request log only grows. *)
Lemma step_requests s ev : ∃ l, requests (step ev s) = requests s ++ l.
Proof.
  assert (Hread : ∀ f oe, ∃ l, requests (snd (getFromCache f oe s)) = requests s ++ l).
  { intros f oe. rewrite getFromCache_state. destruct (bool_decide _).
    - by eexists.
    - exists []. by rewrite app_nil_r. }
  destruct ev as [flagName oe|oe|flagName| |id0 r|e'|t|v]; simpl;
    rewrite ?getExposedExperiments_state;
    [apply Hread|exists []; by rewrite app_nil_r| | |
    |exists []; by rewrite app_nil_r..].
  - destruct (truthy (BENCHMARK_DISABLE_FEATURE_FLAGS (host s))) eqn:Hk.
    { rewrite (evaluateFeatureFlag_disabled _ _ Hk). exists []. by rewrite app_nil_r. }
    rewrite (evaluateFeatureFlag_enabled _ _ Hk). cbv zeta.
    destruct (Hread flagName (Some (endpoint (host s)))) as [l Hl].
    destruct (cached s flagName (endpoint (host s))); simpl.
    + by exists l.
    + rewrite Hl. rewrite <- app_assoc. by eexists.
  - by eexists.
  - exists []. rewrite app_nil_r. apply settle_host_requests.
Qed.

Lemma step_requests_length s ev :
  (length (requests s) ≤ length (requests (step ev s)))%nat.
Proof. destruct (step_requests s ev) as [l ->]. rewrite length_app. lia. Qed.

(** A continuation parked under a number already handed out stays parked
    until its own request settles: later requests get later numbers. *)
Lemma step_awaiting s ev id :
  (id < length (requests s))%nat →
  settles id ev = false →
  awaiting (step ev s) !! id = awaiting s !! id.
Proof.
  intros Hid Hev.
  assert (Hread : ∀ f oe, awaiting (snd (getFromCache f oe s)) !! id = awaiting s !! id).
  { intros f oe. rewrite getFromCache_state. destruct (bool_decide _); [|done].
    simpl. apply lookup_insert_ne. lia. }
  destruct ev as [flagName oe|oe|flagName| |id0 r|e'|t|v]; simpl;
    rewrite ?getExposedExperiments_state; [apply Hread|done| | | |done..].
  - destruct (truthy (BENCHMARK_DISABLE_FEATURE_FLAGS (host s))) eqn:Hk.
    { by rewrite (evaluateFeatureFlag_disabled _ _ Hk). }
    rewrite (evaluateFeatureFlag_enabled _ _ Hk). cbv zeta.
    destruct (cached s flagName (endpoint (host s))); simpl; [apply Hread|].
    rewrite lookup_insert_ne; [apply Hread|].
    pose proof (step_requests_length s
      (call_getFromCache flagName (Some (endpoint (host s))))) as Hle.
    simpl in Hle. lia.
  - apply lookup_insert_ne. lia.
  - simpl in Hev. apply bool_decide_eq_false in Hev.
    destruct (awaiting s !! id0) as [[e' f'|e']|] eqn:Hk.
    + destruct r as [[v|reason]|d].
      * rewrite (settle_evaluate_fulfilled _ _ _ _ _ Hk). simpl.
        by apply lookup_delete_ne.
      * rewrite (settle_evaluate_rejected _ _ _ _ _ Hk). simpl.
        by apply lookup_delete_ne.
      * unfold settle. by rewrite Hk.
    + destruct r as [v|[d|reason]].
      * unfold settle. by rewrite Hk.
      * rewrite (settle_refresh_fulfilled _ _ _ _ Hk). simpl.
        by apply lookup_delete_ne.
      * rewrite (settle_refresh_rejected _ _ _ _ Hk). simpl.
        by apply lookup_delete_ne.
    + unfold settle. rewrite Hk. by destruct r.
Qed.

Lemma run_awaiting trace s id :
  (id < length (requests s))%nat →
  forallb (λ ev, negb (settles id ev)) trace = true →
  awaiting (run trace s) !! id = awaiting s !! id.
Proof.
  revert s. induction trace as [|ev trace IH]; intros s Hid Hq; [done|].
  simpl in Hq. apply andb_true_iff in Hq as [Hev Hq].
  apply negb_true_iff in Hev. simpl.
  rewrite IH; [by apply step_awaiting| |done].
  pose proof (step_requests_length s ev). lia.
Qed.

(** A parked continuation was parked before the turn or got a number
    handed out during it; so request numbers stay below the length of the
    log and [await] never parks over a waiting continuation. *)
Lemma step_awaiting_origin s ev id (k : Continuation) :
  awaiting (step ev s) !! id = Some k →
  awaiting s !! id = Some k
  ∨ (length (requests s) ≤ id < length (requests (step ev s)))%nat.
Proof.
  assert (Hrefresh : ∀ s0, awaiting (snd (refreshFeatureFlags s0)) !! id = Some k →
            awaiting s0 !! id = Some k
            ∨ (length (requests s0) ≤ id
               < length (requests (snd (refreshFeatureFlags s0))))%nat).
  { intros s0. simpl. rewrite length_app. simpl.
    destruct (decide (length (requests s0) = id)) as [<-|Hne]; [right; lia|].
    rewrite lookup_insert_ne by done. by left. }
  assert (Hread : ∀ f oe, awaiting (snd (getFromCache f oe s)) !! id = Some k →
            awaiting s !! id = Some k
            ∨ (length (requests s) ≤ id
               < length (requests (snd (getFromCache f oe s))))%nat).
  { intros f oe. rewrite getFromCache_state.
    destruct (bool_decide _); [apply Hrefresh|by left]. }
  destruct ev as [flagName oe|oe|flagName| |id0 r|e'|t|v]; simpl;
    rewrite ?getExposedExperiments_state; [apply Hread|by left| | | |by left..].
  - destruct (truthy (BENCHMARK_DISABLE_FEATURE_FLAGS (host s))) eqn:Hkill.
    { rewrite (evaluateFeatureFlag_disabled _ _ Hkill). by left. }
    rewrite (evaluateFeatureFlag_enabled _ _ Hkill). cbv zeta.
    pose proof (step_requests_length s
      (call_getFromCache flagName (Some (endpoint (host s))))) as Hle.
    simpl in Hle.
    destruct (cached s flagName (endpoint (host s))); simpl; [apply Hread|].
    rewrite length_app. simpl.
    destruct (decide (length (requests (snd (getFromCache flagName
                (Some (endpoint (host s))) s))) = id)) as [<-|Hne]; [right; lia|].
    rewrite lookup_insert_ne by done. intros Hk.
    destruct (Hread _ _ Hk) as [?|?]; [by left|right; lia].
  - apply (Hrefresh (snd (assign_featureFlags ∅ s))).
  - intros Hk. left.
    destruct (awaiting s !! id0) as [[e' f'|e']|] eqn:Hk0.
    + destruct r as [[v|reason]|d].
      * rewrite (settle_evaluate_fulfilled _ _ _ _ _ Hk0) in Hk. simpl in Hk.
        by apply lookup_delete_Some in Hk as [_ ?].
      * rewrite (settle_evaluate_rejected _ _ _ _ _ Hk0) in Hk. simpl in Hk.
        by apply lookup_delete_Some in Hk as [_ ?].
      * unfold settle in Hk. by rewrite Hk0 in Hk.
    + destruct r as [v|[d|reason]].
      * unfold settle in Hk. by rewrite Hk0 in Hk.
      * rewrite (settle_refresh_fulfilled _ _ _ _ Hk0) in Hk. simpl in Hk.
        by apply lookup_delete_Some in Hk as [_ ?].
      * rewrite (settle_refresh_rejected _ _ _ _ Hk0) in Hk. simpl in Hk.
        by apply lookup_delete_Some in Hk as [_ ?].
    + unfold settle in Hk. rewrite Hk0 in Hk. by destruct r.
Qed.

Lemma step_well_numbered s ev : well_numbered s → well_numbered (step ev s).
Proof.
  intros Hwf id c Hk. pose proof (step_requests_length s ev).
  destruct (step_awaiting_origin _ _ _ _ Hk) as [Hold|?]; [|lia].
  apply Hwf in Hold. lia.
Qed.

Lemma run_well_numbered trace s : well_numbered s → well_numbered (run trace s).
Proof.
  revert s. induction trace as [|ev trace IH]; intros s Hwf; [done|].
  simpl. by apply IH, step_well_numbered.
Qed.

Lemma boot_well_numbered h : well_numbered (boot h).
Proof. intros id c. unfold boot. simpl. by rewrite lookup_empty. Qed.
End Turns.

(** ** Background refresh *)

Section Refreshes.
Implicit Types (s : System) (e : string) (f : FeatureFlag) (id : nat) (ev : Event).

(** C6, as the code has it.  Over a sequence of [getFromCache] calls spread
    over time with no write in between, the provider does not change, and
    every call that finds [now - lastUpdated > ONE_HOUR] sends one bulk
    request of its own: the requests sent are exactly one per stale call
    (none when every call finds the cache fresh), with no deduplication. *)
Theorem cached_reads_refresh_per_stale_call trace s :
  forallb is_cached_read trace = true →
  this (run trace s) = this s
  ∧ requests (run trace s)
    = requests s
      ++ replicate (stale_calls trace (now (host s)) (lastUpdated (this s)))
           apiClient_getEvaluatedFeatureFlags.
Proof.
  revert s. induction trace as [|ev trace IH]; intros s Hq.
  { simpl. by rewrite app_nil_r. }
  simpl in Hq. apply andb_true_iff in Hq as [Hev Hq].
  destruct ev as [flagName oe|oe|flagName| |id0 r|e'|t|v]; try done.
  - destruct (IH (step (call_getFromCache flagName oe) s) Hq) as [Hthis Hreq].
    rewrite !(call_this s (call_getFromCache flagName oe) eq_refl) in *.
    change (run (call_getFromCache flagName oe :: trace) s)
      with (run trace (step (call_getFromCache flagName oe) s)).
    split; [done|]. rewrite Hreq. simpl. rewrite getFromCache_state.
    destruct (bool_decide _); simpl; [|done].
    by rewrite <- app_assoc.
  - destruct (IH (step (host_clock t) s) Hq) as [Hthis Hreq].
    change (run (host_clock t :: trace) s) with (run trace (step (host_clock t) s)).
    split; [done|]. by rewrite Hreq.
Qed.

Lemma cached_reads_refresh_per_stale_call_witness :
  forallb is_cached_read two_reads = true
  ∧ requests (run two_reads warm)
    = requests warm
      ++ replicate (stale_calls two_reads (now (host warm)) (lastUpdated (this warm)))
           apiClient_getEvaluatedFeatureFlags.
Proof.
  split; [reflexivity|].
  exact (proj2 (cached_reads_refresh_per_stale_call two_reads warm eq_refl)).
Defined.

(** C6 fails as stated: two [getFromCache] calls at the same instant on a
    fresh provider, nothing written in between, send two bulk requests. *)
Lemma two_stale_reads_two_refreshes :
  forallb is_cached_read two_reads = true
  ∧ this (run two_reads (boot host_a)) = this (boot host_a)
  ∧ requests (run two_reads (boot host_a))
    = [apiClient_getEvaluatedFeatureFlags; apiClient_getEvaluatedFeatureFlags]
  ∧ ¬ (length (requests (run two_reads (boot host_a))) ≤ 1)%nat.
Proof.
  split; [reflexivity|]. split; [reflexivity|].
  assert (Hreq : requests (run two_reads (boot host_a))
                 = [apiClient_getEvaluatedFeatureFlags; apiClient_getEvaluatedFeatureFlags])
    by reflexivity.
  split; [exact Hreq|]. rewrite Hreq. simpl. lia.
Qed.
End Refreshes.

(** ** The hard reset *)

Section HardReset.
Implicit Types (s : System) (e : string) (f : FeatureFlag) (id : nat) (ev : Event).

(** While no request settles, an empty table stays empty. *)
Lemma run_calls_keep_empty trace s :
  forallb (λ ev, negb (is_settling ev)) trace = true →
  featureFlags (this s) = ∅ →
  featureFlags (this (run trace s)) = ∅.
Proof.
  revert s. induction trace as [|ev trace IH]; intros s Hq Hs; [done|].
  simpl in Hq. apply andb_true_iff in Hq as [Hev Hq]. apply negb_true_iff in Hev.
  simpl. apply IH; [done|]. rewrite (call_this _ _ Hev). by destruct ev.
Qed.

Lemma run_requests_length trace s :
  (length (requests s) ≤ length (requests (run trace s)))%nat.
Proof.
  revert s. induction trace as [|ev trace IH]; intros s; [done|].
  simpl. pose proof (step_requests_length s ev). pose proof (IH (step ev s)). lia.
Qed.

(** The own properties of the table across [syncAuthStatus].  The table is
    replaced by an empty one before anything else and the method parks on
    the bulk request for the endpoint current at the call.  Whatever happens
    until that request settles with a value, the record then stored for that
    endpoint is exactly the bulk result.  When no other request settles
    while [syncAuthStatus] is pending, the table has this record as its only
    own property, whatever it held before the call. *)
Lemma syncAuthStatus_own_properties s trace d :
  forallb (λ ev, negb (settles (length (requests s)) ev)) trace = true →
  let id := length (requests s) in
  let s1 := snd (syncAuthStatus s) in
  let landing := request_settles id (getEvaluatedFeatureFlags_response (Fulfilled d)) in
  let s2 := step landing (run trace s1) in
  fst (syncAuthStatus s) = Pending id
  ∧ featureFlags (this s1) = ∅
  ∧ fst (settle id (getEvaluatedFeatureFlags_response (Fulfilled d)) (run trace s1))
    = Some (refreshFeatureFlags_settled (Fulfilled tt))
  ∧ featureFlags (this s2) !! endpoint (host s) = Some (stored_record d)
  ∧ (forallb (λ ev, negb (is_settling ev)) trace = true →
     featureFlags (this s2) = {[ endpoint (host s) := stored_record d ]}
     ∧ (∀ e, exposed s2 e
             = if decide (e = endpoint (host s)) then stored_record d else ∅)
     ∧ (∀ f e, cached s2 f e
               = if decide (e = endpoint (host s))
                 then stored_record d !! FeatureFlag_value f else None)).
Proof.
  intros Hq. cbv zeta.
  assert (Hk : awaiting (run trace (snd (syncAuthStatus s))) !! length (requests s)
               = Some (refreshFeatureFlags_awaiting (endpoint (host s)))).
  { rewrite run_awaiting; [|rewrite syncAuthStatus_spec; simpl; rewrite length_app;
                             simpl; lia|done].
    rewrite syncAuthStatus_spec. simpl. apply lookup_insert_eq. }
  split; [done|]. split; [done|].
  unfold step. rewrite (settle_refresh_fulfilled _ _ _ _ Hk).
  cbn [fst snd this featureFlags].
  split; [done|]. split; [apply lookup_insert_eq|].
  intros Hquiet.
  assert (Hempty : featureFlags (this (run trace (snd (syncAuthStatus s)))) = ∅)
    by (by apply run_calls_keep_empty).
  rewrite Hempty. split; [done|]. split.
  - intros e. unfold exposed. rewrite getExposedExperiments_spec. simpl.
    destruct (decide (e = endpoint (host s))) as [->|Hne].
    + by rewrite lookup_insert_eq.
    + by rewrite lookup_insert_ne, lookup_empty.
  - intros f e. rewrite cached_entry. unfold entry. simpl.
    destruct (decide (e = endpoint (host s))) as [->|Hne].
    + by rewrite lookup_insert_eq.
    + by rewrite lookup_insert_ne, lookup_empty.
Qed.

(** C1 fails as stated: a refresh started under endpoint a is in flight when
    the host moves to endpoint b and calls [syncAuthStatus]; the old refresh
    settles while [syncAuthStatus] is pending.  When [syncAuthStatus]
    completes, the table holds the bulk result for endpoint b and also the
    record fetched for endpoint a before the reset. *)
Lemma reset_keeps_landing_refresh :
  fst (settle 1 (getEvaluatedFeatureFlags_response (Fulfilled flags_xy)) during_reset)
  = Some (refreshFeatureFlags_settled (Fulfilled tt))
  ∧ endpoint (host during_reset) = "https://b"
  ∧ cached (snd (settle 1 (getEvaluatedFeatureFlags_response (Fulfilled flags_xy))
                   during_reset)) CodyProJetBrains "https://a" = Some true
  ∧ featureFlags
      (this (snd (settle 1 (getEvaluatedFeatureFlags_response (Fulfilled flags_xy))
                    during_reset)))
    ≠ {[ "https://b" := stored_record flags_xy ]}.
Proof.
  assert (Hc : cached (snd (settle 1 (getEvaluatedFeatureFlags_response
                                       (Fulfilled flags_xy)) during_reset))
                 CodyProJetBrains "https://a" = Some true) by reflexivity.
  split; [reflexivity|]. split; [reflexivity|]. split; [exact Hc|].
  intros Hsingle. rewrite cached_entry in Hc. unfold entry in Hc.
  rewrite Hsingle in Hc. by rewrite lookup_singleton_ne in Hc.
Qed.

(** The second end-to-end scenario of the design document: after a reset
    whose bulk fetch returns flagX on and flagY off, exactly these two are
    exposed for the endpoint, nothing is exposed for another endpoint, and a
    flag outside the result reads as undefined. *)
Example reset_scenario :
  let s2 := step (request_settles 2 (getEvaluatedFeatureFlags_response (Fulfilled flags_xy)))
              (snd (syncAuthStatus warm)) in
  exposed s2 "https://a" !! "flagX" = Some true
  ∧ exposed s2 "https://a" !! "flagY" = Some false
  ∧ cached s2 CodyProJetBrains "https://a" = None
  ∧ cached warm CodyProJetBrains "https://a" = Some true.
Proof. repeat split; reflexivity. Qed.
End HardReset.

(** ** The life of one entry *)

Section Entries.
Implicit Types (s : System) (e k : string) (f : FeatureFlag) (id : nat) (ev : Event).

(** An event that neither populates nor erases an entry leaves it as it is;
    one that populates it leaves it defined; one that only erases it leaves
    it undefined. *)
Lemma step_entry s ev e k :
  if populates s ev e k then is_Some (entry (step ev s) e k)
  else if erases s ev e k then entry (step ev s) e k = None
  else entry (step ev s) e k = entry s e k.
Proof.
  unfold entry.
  destruct ev as [flagName oe|oe|flagName| |id0 r|e'|t|v]; simpl;
    rewrite ?getExposedExperiments_state, ?getFromCache_this,
      ?evaluateFeatureFlag_this; try done.
  destruct (awaiting s !! id0) as [[e0 f0|e0]|] eqn:Hk.
  - destruct r as [[v|reason]|d].
    + rewrite (settle_evaluate_fulfilled _ _ _ _ _ Hk). simpl.
      destruct (decide (e0 = e)) as [->|Hne].
      * rewrite bool_decide_eq_true_2 by done. rewrite lookup_insert_eq. simpl.
        destruct (decide (FeatureFlag_value f0 = k)) as [<-|Hnk].
        -- rewrite bool_decide_eq_true_2 by done. simpl.
           rewrite lookup_insert_eq. by eexists.
        -- rewrite bool_decide_eq_false_2 by done. simpl.
           rewrite lookup_insert_ne by done.
           destruct (featureFlags (this s) !! e); simpl; [done|].
           by rewrite lookup_empty.
      * rewrite bool_decide_eq_false_2 by done. simpl.
        by rewrite lookup_insert_ne.
    + by rewrite (settle_evaluate_rejected _ _ _ _ _ Hk).
    + unfold settle. by rewrite Hk.
  - destruct r as [v|[d|reason]].
    + unfold settle. by rewrite Hk.
    + rewrite (settle_refresh_fulfilled _ _ _ _ Hk). simpl.
      destruct (decide (e0 = e)) as [->|Hne].
      * rewrite !bool_decide_eq_true_2 by done. rewrite lookup_insert_eq. simpl.
        destruct (stored_record d !! k) eqn:Hd.
        -- rewrite bool_decide_eq_true_2 by by eexists. by eexists.
        -- rewrite bool_decide_eq_false_2 by (by intros [? ?]).
           by rewrite bool_decide_eq_true_2.
      * rewrite !bool_decide_eq_false_2 by done. simpl.
        by rewrite lookup_insert_ne.
    + by rewrite (settle_refresh_rejected _ _ _ _ Hk).
  - unfold settle. rewrite Hk. by destruct r.
Qed.

Lemma run_entry trace s e k (before : bool) :
  (is_Some (entry s e k) ↔ before = true) →
  (is_Some (entry (run trace s) e k) ↔ populated trace s e k before = true).
Proof.
  revert s before. induction trace as [|ev trace IH]; intros s before Hs; [done|].
  simpl. apply IH. pose proof (step_entry s ev e k) as Hstep.
  destruct (populates s ev e k); [done|].
  destruct (erases s ev e k).
  - rewrite Hstep. split; [by intros [? ?]|done].
  - by rewrite Hstep.
Qed.

(** The own entry of the table for (E, F), on a provider run from its
    construction, is absent exactly when the entry is not populated
    according to its history: it is populated by a single-flag evaluation
    for (E, F) that settles with a value and by a bulk fetch for E whose
    record holds F, and it is un-populated again by [syncAuthStatus] and by
    a bulk fetch for E that settles with an error value or with a record
    lacking F, since a bulk fetch replaces the whole record of E. *)
Lemma own_entry_absent_iff_unpopulated (h : Host) trace f e :
  cached (run trace (boot h)) f e = None
  ↔ populated trace (boot h) e (FeatureFlag_value f) false = false.
Proof.
  rewrite cached_entry.
  pose proof (run_entry trace (boot h) e (FeatureFlag_value f) false) as Hrun.
  assert (Hboot : is_Some (entry (boot h) e (FeatureFlag_value f)) ↔ false = true).
  { unfold entry, boot. simpl. rewrite lookup_empty. simpl. split; [by intros [? ?]|done]. }
  apply Hrun in Hboot.
  destruct (populated trace (boot h) e (FeatureFlag_value f) false).
  - split; [|done]. intros Hnone.
    destruct (proj2 Hboot eq_refl) as [b Hb]. congruence.
  - split; [done|]. intros _.
    destruct (entry (run trace (boot h)) e (FeatureFlag_value f)) eqn:He; [|done].
    assert (false = true) by (apply Hboot; by eexists). done.
Qed.

(** C4 fails as stated: a single-flag evaluation populates the entry, no
    [syncAuthStatus] ever runs, and the refresh that was in flight then fails
    with an error value; [getFromCache] is undefined for the entry again. *)
Lemma error_refresh_forgets_entry :
  populates (step (call_evaluateFeatureFlag CodyProJetBrains) (boot host_a))
    (request_settles 1 (evaluateFeatureFlag_response (Fulfilled (flag_boolean true))))
    "https://a" (FeatureFlag_value CodyProJetBrains) = true
  ∧ cached warm CodyProJetBrains "https://a" = Some true
  ∧ forallb (λ ev, match ev with call_syncAuthStatus => false | _ => true end)
      refresh_failed = true
  ∧ cached (run refresh_failed (boot host_a)) CodyProJetBrains "https://a" = None.
Proof. repeat split; reflexivity. Qed.





End Entries.


(** * Further properties of the provider *)

Section Provider.
Implicit Types (s : System) (e : string) (f : FeatureFlag) (id : nat) (ev : Event).

Lemma FeatureFlag_value_inj f f' : FeatureFlag_value f = FeatureFlag_value f' → f = f'.
Proof. destruct f, f'; simpl; intros H; try reflexivity; discriminate H. Qed.

(** X1. With the switch off, one call of [evaluateFeatureFlag] sends a bulk
    request exactly when the cache is stale and a single-flag request exactly
    when the entry is not cached, in this order; on a hit the promise is
    already fulfilled with the cached value, on a miss it is pending on the
    single-flag request; the provider is not modified by the call. *)
Theorem evaluate_traffic_spec s f :
  truthy (BENCHMARK_DISABLE_FEATURE_FLAGS (host s)) = false →
  requests (snd (evaluateFeatureFlag f s)) = requests s ++ evaluate_traffic s f
  ∧ this (snd (evaluateFeatureFlag f s)) = this s
  ∧ fst (evaluateFeatureFlag f s)
    = match cached s f (endpoint (host s)) with
      | Some b => Settled (Fulfilled b)
      | None => Pending (length (requests s ++ evaluate_traffic s f) - 1)
      end.
Proof.
  intros Hk. split; [|split; [apply evaluateFeatureFlag_this|]].
  - rewrite (evaluateFeatureFlag_enabled _ _ Hk). cbv zeta. unfold evaluate_traffic.
    rewrite getFromCache_state.
    destruct (bool_decide _); destruct (cached s f (endpoint (host s))); simpl;
      rewrite ?app_nil_r, <- ?app_assoc; done.
  - rewrite (evaluateFeatureFlag_enabled _ _ Hk). cbv zeta. unfold evaluate_traffic.
    rewrite getFromCache_state.
    destruct (bool_decide _); destruct (cached s f (endpoint (host s))); simpl;
      try done; rewrite !length_app; simpl; f_equal; lia.
Qed.

Lemma evaluate_traffic_spec_witness :
  truthy (BENCHMARK_DISABLE_FEATURE_FLAGS (host warm)) = false
  ∧ requests (snd (evaluateFeatureFlag CodyCommandHints warm))
    = requests warm ++ evaluate_traffic warm CodyCommandHints.
Proof.
  split; [reflexivity|].
  exact (proj1 (evaluate_traffic_spec warm CodyCommandHints eq_refl)).
Defined.

(** Among the own properties, a settled single-flag evaluation writes the
    entry of its own flag and of no other. *)
Lemma own_flag_written s id e f r f' :
  awaiting s !! id = Some (evaluateFeatureFlag_awaiting e f) →
  f' ≠ f →
  ∀ e', cached (step (request_settles id r) s) f' e' = cached s f' e'.
Proof.
  intros Hk Hne e'. rewrite !cached_entry. unfold entry, step.
  destruct r as [[v|reason]|d].
  - rewrite (settle_evaluate_fulfilled _ _ _ _ _ Hk). simpl.
    destruct (decide (e = e')) as [->|Hne'].
    + rewrite lookup_insert_eq. simpl. rewrite lookup_insert_ne.
      * by destruct (featureFlags (this s) !! e').
      * intros Heq. by apply FeatureFlag_value_inj in Heq.
    + by rewrite lookup_insert_ne.
  - by rewrite (settle_evaluate_rejected _ _ _ _ _ Hk).
  - unfold settle. by rewrite Hk.
Qed.

(** One turn leaves [lastUpdated] as it is or sets it to the clock's
    reading; only the host moves the clock. *)
Lemma step_lastUpdated s ev :
  lastUpdated (this (step ev s)) = lastUpdated (this s)
  ∨ lastUpdated (this (step ev s)) = now (host s).
Proof.
  destruct ev as [flagName oe|oe|flagName| |id0 r|e'|t|v]; simpl;
    rewrite ?getExposedExperiments_state, ?getFromCache_this,
      ?evaluateFeatureFlag_this; try (by left).
  destruct (awaiting s !! id0) as [[e0 f0|e0]|] eqn:Hk.
  - destruct r as [[v|reason]|d].
    + rewrite (settle_evaluate_fulfilled _ _ _ _ _ Hk). by left.
    + rewrite (settle_evaluate_rejected _ _ _ _ _ Hk). by left.
    + unfold settle. rewrite Hk. by left.
  - destruct r as [v|[d|reason]].
    + unfold settle. rewrite Hk. by left.
    + rewrite (settle_refresh_fulfilled _ _ _ _ Hk). by right.
    + rewrite (settle_refresh_rejected _ _ _ _ Hk). by left.
  - unfold settle. rewrite Hk. destruct r; by left.
Qed.

Lemma step_now s ev :
  now (host (step ev s)) = match ev with host_clock t => t | _ => now (host s) end.
Proof.
  destruct ev as [flagName oe|oe|flagName| |id0 r|e'|t|v]; simpl;
    rewrite ?getExposedExperiments_state; try done.
  - rewrite getFromCache_state. by destruct (bool_decide _).
  - destruct (truthy (BENCHMARK_DISABLE_FEATURE_FLAGS (host s))) eqn:Hk.
    { by rewrite (evaluateFeatureFlag_disabled _ _ Hk). }
    rewrite (evaluateFeatureFlag_enabled _ _ Hk). cbv zeta.
    destruct (cached s flagName (endpoint (host s))); simpl;
      rewrite getFromCache_state; by destruct (bool_decide _).
  - by rewrite (proj1 (settle_host_requests s id0 r)).
Qed.

(** X4. [lastUpdated] is only ever assigned a reading of the clock.  So on a
    host whose clock never runs backwards, [lastUpdated] never decreases and
    never lies in the future, over any sequence of calls, settlements and
    host changes. *)
Theorem lastUpdated_monotone trace s :
  clock_monotone trace (now (host s)) = true →
  lastUpdated (this s) ≤ now (host s) →
  lastUpdated (this s) ≤ lastUpdated (this (run trace s))
  ∧ lastUpdated (this (run trace s)) ≤ now (host (run trace s)).
Proof.
  revert s. induction trace as [|ev trace IH]; intros s Hmono Hle; [simpl; lia|].
  assert (Hstep : clock_monotone trace (now (host (step ev s))) = true
                  ∧ now (host s) ≤ now (host (step ev s))).
  { rewrite step_now. destruct ev; simpl in Hmono; try (split; [done|lia]).
    apply andb_true_iff in Hmono as [Ht Hmono]. apply bool_decide_eq_true in Ht.
    by split. }
  destruct Hstep as [Hmono' Hnow].
  assert (Hle' : lastUpdated (this s) ≤ lastUpdated (this (step ev s))
                 ∧ lastUpdated (this (step ev s)) ≤ now (host (step ev s))).
  { destruct (step_lastUpdated s ev) as [->| ->]; lia. }
  destruct (IH (step ev s) Hmono' (proj2 Hle')) as [H1 H2].
  simpl. lia.
Qed.

Lemma lastUpdated_monotone_witness :
  clock_monotone busy_day (now (host (boot host_a))) = true
  ∧ lastUpdated (this (boot host_a)) ≤ now (host (boot host_a))
  ∧ lastUpdated (this (boot host_a)) ≤ lastUpdated (this (run busy_day (boot host_a)))
  ∧ lastUpdated (this (run busy_day (boot host_a)))
    ≤ now (host (run busy_day (boot host_a))).
Proof.
  assert (Hle : lastUpdated (this (boot host_a)) ≤ now (host (boot host_a)))
    by (vm_compute; discriminate).
  split; [reflexivity|]. split; [exact Hle|].
  exact (lastUpdated_monotone busy_day (boot host_a) eq_refl Hle).
Defined.


(** X6. The record of an endpoint, once created by a refresh or by an
    evaluation, is never removed by anything but [syncAuthStatus]: over any
    sequence of other calls, settlements and host changes the endpoint keeps
    a record, so [getExposedExperiments] keeps answering from a stored
    record for every endpoint ever used. *)
Theorem endpoint_records_persist trace s e :
  forallb (λ ev, negb (is_reset ev)) trace = true →
  is_Some (featureFlags (this s) !! e) →
  is_Some (featureFlags (this (run trace s)) !! e).
Proof.
  revert s. induction trace as [|ev trace IH]; intros s Hq Hs; [done|].
  simpl in Hq. apply andb_true_iff in Hq as [Hev Hq]. apply negb_true_iff in Hev.
  simpl. apply IH; [done|]. clear IH Hq.
  destruct ev as [flagName oe|oe|flagName| |id0 r|e'|t|v]; simpl;
    rewrite ?getExposedExperiments_state, ?getFromCache_this,
      ?evaluateFeatureFlag_this; try done.
  destruct (awaiting s !! id0) as [[e0 f0|e0]|] eqn:Hk.
  - destruct r as [[v|reason]|d].
    + rewrite (settle_evaluate_fulfilled _ _ _ _ _ Hk). simpl.
      rewrite lookup_insert. by case_decide.
    + by rewrite (settle_evaluate_rejected _ _ _ _ _ Hk).
    + unfold settle. by rewrite Hk.
  - destruct r as [v|[d|reason]].
    + unfold settle. by rewrite Hk.
    + rewrite (settle_refresh_fulfilled _ _ _ _ Hk). simpl.
      rewrite lookup_insert. by case_decide.
    + by rewrite (settle_refresh_rejected _ _ _ _ Hk).
  - unfold settle. rewrite Hk. by destruct r.
Qed.

Lemma endpoint_records_persist_witness :
  forallb (λ ev, negb (is_reset ev)) two_reads = true
  ∧ is_Some (featureFlags (this warm) !! "https://a")
  ∧ is_Some (featureFlags (this (run two_reads warm)) !! "https://a").
Proof.
  assert (Hs : is_Some (featureFlags (this warm) !! "https://a")).
  { assert (Hc : cached warm CodyProJetBrains "https://a" = Some true) by reflexivity.
    rewrite cached_entry in Hc. unfold entry in Hc.
    destruct (featureFlags (this warm) !! "https://a"); [by eexists|done]. }
  split; [reflexivity|]. split; [exact Hs|].
  exact (endpoint_records_persist two_reads warm "https://a" eq_refl Hs).
Defined.

(** X7. Which turns send a bulk request: [syncAuthStatus] always;
    [getFromCache], and [evaluateFeatureFlag] with the switch off, exactly
    when [now - lastUpdated] is strictly more than one hour; nothing else,
    in particular not [getExposedExperiments], however stale the cache is.
    Each such turn sends one bulk request. *)
Theorem bulk_requests_sent s ev :
  filter is_bulk (requests (step ev s))
  = filter is_bulk (requests s)
    ++ (if sends_bulk s ev then [apiClient_getEvaluatedFeatureFlags] else []).
Proof.
  destruct ev as [flagName oe|oe|flagName| |id0 r|e'|t|v]; simpl;
    rewrite ?getExposedExperiments_state, ?app_nil_r; try done.
  - rewrite getFromCache_state.
    destruct (bool_decide _); simpl; rewrite ?app_nil_r; [|done].
    by rewrite filter_app.
  - destruct (truthy (BENCHMARK_DISABLE_FEATURE_FLAGS (host s))) eqn:Hk.
    { rewrite (evaluateFeatureFlag_disabled _ _ Hk). simpl. by rewrite app_nil_r. }
    destruct (evaluate_traffic_spec s flagName Hk) as (-> & _ & _).
    unfold evaluate_traffic. rewrite !filter_app. simpl.
    destruct (bool_decide _); destruct (cached s flagName (endpoint (host s)));
      simpl; by rewrite ?app_nil_r.
  - by rewrite filter_app.
  - by rewrite (proj2 (settle_host_requests s id0 r)).
Qed.

(** The boundary of the staleness test: a cache exactly one hour old is not
    refreshed by a read, one a millisecond older is. *)
Example staleness_boundary :
  now (host exactly_one_hour_old) - lastUpdated (this exactly_one_hour_old) = ONE_HOUR
  ∧ sends_bulk exactly_one_hour_old (call_getFromCache CodyProJetBrains None) = false
  ∧ sends_bulk (step (host_clock (1700000000001 + ONE_HOUR)) exactly_one_hour_old)
      (call_getFromCache CodyProJetBrains None) = true.
Proof. repeat split; reflexivity. Qed.

(** On the own properties the two read methods agree and resolve their
    default endpoint alike, and neither of them modifies the provider. *)
Lemma own_reads_agree s f (oe : option string) :
  fst (getFromCache f oe s) = fst (getExposedExperiments oe s) !! FeatureFlag_value f
  ∧ this (snd (getFromCache f oe s)) = this s
  ∧ snd (getExposedExperiments oe s) = s.
Proof.
  split; [|split; [apply getFromCache_this|apply getExposedExperiments_state]].
  rewrite getExposedExperiments_spec. simpl.
  destruct oe as [e|].
  - rewrite getFromCache_value.
    destruct (featureFlags (this s) !! e); simpl; [done|by rewrite lookup_empty].
  - rewrite getFromCache_default_value, getFromCache_value.
    destruct (featureFlags (this s) !! endpoint (host s)); simpl;
      [done|by rewrite lookup_empty].
Qed.
End Provider.

(** * The command registry *)

Section Commands.
Context {CodyCommand : Type}.
Implicit Types (m l : list (string * CodyCommand)) (k id : string) (v : CodyCommand).

Lemma Map_get_set k k' v m :
  Map_get k (Map_set k' v m) = if bool_decide (k' = k) then Some v else Map_get k m.
Proof.
  induction m as [|[k0 v0] m IH]; simpl; [done|].
  destruct (decide (k0 = k')) as [->|Hne].
  - rewrite bool_decide_eq_true_2 by done. simpl. by case_bool_decide.
  - rewrite bool_decide_eq_false_2 by done. simpl. rewrite IH.
    repeat case_bool_decide; congruence.
Qed.

(** Looking up a key in [new Map(entries)] finds the last entry for it. *)
Lemma Map_get_fold k l m :
  Map_get k (fold_left (λ m kv, Map_set (fst kv) (snd kv) m) l m)
  = match last (filter (λ kv, fst kv = k) l) with
    | Some kv => Some (snd kv)
    | None => Map_get k m
    end.
Proof.
  revert m. induction l as [|[k0 v0] l IH]; intros m; simpl; [done|].
  rewrite IH, Map_get_set. rewrite filter_cons. simpl.
  destruct (decide (k0 = k)) as [->|Hne].
  - rewrite bool_decide_eq_true_2 by done.
    rewrite last_cons. by destruct (last (filter (λ kv, fst kv = k) l)).
  - by rewrite bool_decide_eq_false_2.
Qed.

Lemma ltb_irrefl (s : string) : String.ltb s s = false.
Proof.
  unfold String.ltb. pose proof (String.compare_antisym s s) as H.
  destruct (String.compare s s); simpl in H; done.
Qed.

(** The sort is stable: the entries of one key keep their relative order. *)
Lemma filter_sort_insert k (x : string * CodyCommand) l :
  filter (λ kv, fst kv = k) (sort_insert x l)
  = filter (λ kv, fst kv = k) (x :: l).
Proof.
  induction l as [|y l IH]; [done|]. simpl.
  destruct (String.ltb (entry_toString y) (entry_toString x)) eqn:Hlt; [|done].
  rewrite !filter_cons, IH, filter_cons.
  destruct (decide (fst x = k)) as [Hx|Hx]; destruct (decide (fst y = k)) as [Hy|Hy];
    try done.
  unfold entry_toString in Hlt. rewrite Hx, Hy, ltb_irrefl in Hlt. done.
Qed.

Lemma filter_Array_sort k l :
  filter (λ kv, fst kv = k) (Array_sort l) = filter (λ kv, fst kv = k) l.
Proof.
  induction l as [|x l IH]; [done|]. simpl.
  by rewrite filter_sort_insert, !filter_cons, IH.
Qed.

Lemma filter_absent_key k m :
  k ∉ fst <$> m → filter (λ kv, fst kv = k) m = [].
Proof.
  induction m as [|[k0 v0] m IH]; intros Hk; [done|].
  simpl in Hk. apply not_elem_of_cons in Hk as [Hne Hk].
  rewrite filter_cons. simpl. rewrite decide_False by done. by apply IH.
Qed.

(** In a map, the only entry of a key is the one a lookup finds. *)
Lemma Map_get_last k m :
  NoDup (fst <$> m) →
  match last (filter (λ kv, fst kv = k) m) with
  | Some kv => Some (snd kv)
  | None => None
  end = Map_get k m.
Proof.
  induction m as [|[k0 v0] m IH]; intros Hnd; [done|].
  simpl in Hnd. apply NoDup_cons in Hnd as [Hk0 Hnd]. simpl.
  rewrite filter_cons. simpl.
  destruct (decide (k0 = k)) as [->|Hne].
  - rewrite bool_decide_eq_true_2 by done.
    by rewrite (filter_absent_key _ _ Hk0).
  - rewrite bool_decide_eq_false_2 by done. by apply IH.
Qed.

(** Copying a map entry by entry gives the same entries. *)
Lemma fold_Map_set_fresh l m :
  NoDup (fst <$> (m ++ l)) →
  fold_left (λ m kv, Map_set (fst kv) (snd kv) m) l m = m ++ l.
Proof.
  revert m. induction l as [|[k0 v0] l IH]; intros m Hnd; simpl.
  { by rewrite app_nil_r. }
  assert (Hset : Map_set k0 v0 m = m ++ [(k0, v0)]).
  { rewrite fmap_app in Hnd. apply NoDup_app in Hnd as (_ & Hdisj & _).
    assert (Hk0 : k0 ∉ fst <$> m).
    { intros Hin. apply (Hdisj _ Hin). simpl. left. }
    clear -Hk0. induction m as [|[k1 v1] m IH]; simpl; [done|].
    simpl in Hk0. apply not_elem_of_cons in Hk0 as [Hne Hk0].
    rewrite bool_decide_eq_false_2 by done. by rewrite IH. }
  rewrite Hset, IH; rewrite <- app_assoc; done.
Qed.

Lemma new_Map_copy m : NoDup (fst <$> m) → new_Map m = m.
Proof. intros Hnd. unfold new_Map. by rewrite fold_Map_set_fresh. Qed.

(** X9. After [groupCommands(customCommands)], [get(id)] returns the default
    command registered under [id] when there is one, and otherwise the
    custom command under [id], if any: in the merged array the custom entry
    comes first, the stable sort keeps it first, and the default entry set
    later into the map overwrites it.  A custom command cannot replace a
    default one of the same name. *)
Theorem get_after_groupCommands (this : CommandsProvider CodyCommand)
    (customCommands : list (string * CodyCommand)) id :
  NoDup (fst <$> defaultCommands this) →
  NoDup (fst <$> customCommands) →
  CommandsProvider_get (groupCommands this (Some customCommands)) id
  = match Map_get id (defaultCommands this) with
    | Some command => Some command
    | None => Map_get id customCommands
    end.
Proof.
  intros Hd Hc. unfold CommandsProvider_get, groupCommands. simpl.
  rewrite (new_Map_copy _ Hd). unfold new_Map.
  rewrite Map_get_fold, filter_Array_sort, filter_app. simpl.
  rewrite <- (Map_get_last id _ Hd), <- (Map_get_last id _ Hc).
  destruct (filter (λ kv, fst kv = id) (defaultCommands this)) as [|kv l] eqn:Hf.
  - by rewrite app_nil_r.
  - rewrite last_app. by destruct (last (kv :: l)) eqn:Hl.
Qed.

(** X10. A freshly constructed provider, and [groupCommands()] called
    without argument or after the custom store has become empty, know
    exactly the default commands: [get] answers as a lookup among them.
    Each regrouping starts again from the defaults, so a custom command that
    is no longer in the store is no longer found. *)
Theorem defaults_only (this : CommandsProvider CodyCommand)
    (vscodeDefaultCommands : list (string * CodyCommand)) id :
  NoDup (fst <$> vscodeDefaultCommands) →
  NoDup (fst <$> defaultCommands this) →
  CommandsProvider_get (new_CommandsProvider vscodeDefaultCommands) id
    = Map_get id vscodeDefaultCommands
  ∧ CommandsProvider_get (groupCommands this None) id = Map_get id (defaultCommands this)
  ∧ ∀ customCommands,
      CommandsProvider_get (refresh_with (refresh_with this customCommands) []) id
      = Map_get id (defaultCommands this).
Proof.
  intros Hv Hd.
  assert (Hnil : ∀ this' : CommandsProvider CodyCommand,
            NoDup (fst <$> defaultCommands this') →
            CommandsProvider_get (groupCommands this' (Some [])) id
            = Map_get id (defaultCommands this')).
  { intros this' Hd'. unfold CommandsProvider_get, groupCommands. simpl.
    rewrite (new_Map_copy _ Hd'). unfold new_Map.
    rewrite Map_get_fold, filter_Array_sort. simpl.
    by rewrite (Map_get_last id _ Hd'). }
  split; [|split].
  - unfold new_CommandsProvider, CommandsProvider_get, groupCommands. simpl.
    rewrite (new_Map_copy _ Hv). unfold new_Map.
    rewrite Map_get_fold, filter_Array_sort, filter_app. simpl.
    rewrite <- (Map_get_last id _ Hv).
    destruct (filter (λ kv : string * CodyCommand, fst kv = id) vscodeDefaultCommands)
      as [|kv l] eqn:Hf;
      [done|].
    rewrite last_app. by destruct (last (kv :: l)).
  - by apply Hnil.
  - intros customCommands. by apply (Hnil (refresh_with this customCommands)).
Qed.

End Commands.

Lemma get_after_groupCommands_witness :
  NoDup (fst <$> defaultCommands (new_CommandsProvider example_defaults))
  ∧ NoDup (fst <$> example_custom)
  ∧ CommandsProvider_get
      (groupCommands (new_CommandsProvider example_defaults) (Some example_custom)) "edit"
    = Some "Edit code".
Proof.
  assert (Hd : NoDup (fst <$> defaultCommands (new_CommandsProvider example_defaults)))
    by (apply (@bool_decide_unpack _ (NoDup_dec _)); vm_compute; exact I).
  assert (Hc : NoDup (fst <$> example_custom))
    by (apply (@bool_decide_unpack _ (NoDup_dec _)); vm_compute; exact I).
  split; [exact Hd|]. split; [exact Hc|].
  exact (get_after_groupCommands (new_CommandsProvider example_defaults)
           example_custom "edit" Hd Hc).
Defined.

Lemma defaults_only_witness :
  NoDup (fst <$> example_defaults)
  ∧ NoDup (fst <$> defaultCommands (refresh_with (new_CommandsProvider example_defaults)
                                       example_custom))
  ∧ CommandsProvider_get (new_CommandsProvider example_defaults) "test"
    = Map_get "test" example_defaults.
Proof.
  assert (Hv : NoDup (fst <$> example_defaults))
    by (apply (@bool_decide_unpack _ (NoDup_dec _)); vm_compute; exact I).
  split; [exact Hv|]. split; [exact Hv|].
  exact (proj1 (defaults_only
    (refresh_with (new_CommandsProvider example_defaults) example_custom)
    example_defaults "test" Hv Hv)).
Defined.

(** The registry on the example: the custom command named like a default
    one is shadowed, the other custom commands are found, unknown names are
    not. *)
Example registry_lookups :
  let this := refresh_with (new_CommandsProvider example_defaults) example_custom in
  CommandsProvider_get this "edit" = Some "Edit code"
  ∧ CommandsProvider_get this "commit" = Some "Write a commit message"
  ∧ CommandsProvider_get this "zip" = Some "Compress"
  ∧ CommandsProvider_get this "none" = None
  ∧ fst <$> allCommands this = ["ask"; "commit"; "edit"; "test"; "zip"].
Proof. repeat split; reflexivity. Qed.

(** * Test files as context *)

Section TestFiles.
Context {URI ContextFile : Type} (imports : TestFileImports URI ContextFile).
Implicit Types (workspace : nat → string → string → Z → Settlement (list ContextFile))
  (file : URI) (files found : list ContextFile).

(** X11. The searches [getContextFilesForUnitTestCommand] makes.  The first
    one is for the pattern of the current directory, with at most 10
    results.  A second one, for the whole workspace and with at most 5
    results, is made exactly when the first is answered with no file at all.
    When the first search finds files, the result is its valid test files
    and nothing else, even when none of them is valid: the workspace is not
    searched although the result is empty.  A rejected search rejects the
    call, for no [try] surrounds the awaits. *)
Theorem unit_test_searches workspace file :
  let excludePattern := "**/*{e2e,integration,node_modules,dist}*/**" in
  let inCurrentDir := getSearchPatternForTestFiles imports file true in
  let inWorkspace := getSearchPatternForTestFiles imports file false in
  let call := perform workspace 0 (getContextFilesForUnitTestCommand imports file) in
  match workspace 0%nat inCurrentDir excludePattern 10 with
  | Rejected reason =>
      call = (Rejected reason, [(inCurrentDir, excludePattern, 10)])
  | Fulfilled [] =>
      snd call = [(inCurrentDir, excludePattern, 10); (inWorkspace, excludePattern, 5)]
      ∧ fst call
        = match workspace 1%nat inWorkspace excludePattern 5 with
          | Rejected reason => Rejected reason
          | Fulfilled codebaseFiles =>
              Fulfilled (filter (λ f, isValidTestFile imports (uri imports f) = true)
                           codebaseFiles)
          end
  | Fulfilled currentDirContext =>
      call = (Fulfilled (filter (λ f, isValidTestFile imports (uri imports f) = true)
                           currentDirContext),
              [(inCurrentDir, excludePattern, 10)])
  end.
Proof.
  cbv zeta. unfold getContextFilesForUnitTestCommand. simpl.
  destruct (workspace 0%nat _ _ 10) as [[|f0 found]|reason] eqn:H0; simpl.
  - change (10 / 2) with 5.
    destruct (workspace 1%nat _ _ 5) as [codebaseFiles|reason] eqn:H1; simpl; done.
  - done.
  - done.
Qed.

(** X12. Whatever the workspace answers, a fulfilled call returns valid
    test files only; they are the valid ones, in the order found, among the
    files of one search answer; and when the workspace keeps to the maximum
    it is asked for, they are at most 10. *)
Theorem unit_test_context_files workspace file files :
  fst (perform workspace 0 (getContextFilesForUnitTestCommand imports file))
  = Fulfilled files →
  Forall (λ f, isValidTestFile imports (uri imports f) = true) files
  ∧ (∃ n globPattern maxResults found,
       workspace n globPattern "**/*{e2e,integration,node_modules,dist}*/**" maxResults
       = Fulfilled found
       ∧ files = filter (λ f, isValidTestFile imports (uri imports f) = true) found)
  ∧ (respects_maxResults workspace → (length files ≤ 10)%nat).
Proof.
  intros Hcall.
  assert (Hfound : ∃ n globPattern maxResults found,
            maxResults ≤ 10
            ∧ workspace n globPattern "**/*{e2e,integration,node_modules,dist}*/**"
                maxResults = Fulfilled found
            ∧ files = filter (λ f, isValidTestFile imports (uri imports f) = true) found).
  { pose proof (unit_test_searches workspace file) as Hs. cbv zeta in Hs.
    destruct (workspace 0%nat _ _ 10) as [[|f0 found]|reason] eqn:H0.
    - destruct Hs as [_ Hs]. rewrite Hcall in Hs.
      destruct (workspace 1%nat _ _ 5) as [codebaseFiles|reason] eqn:H1; [|done].
      injection Hs as ->. by eexists 1%nat, _, 5, codebaseFiles.
    - rewrite Hs in Hcall. injection Hcall as <-. by eexists 0%nat, _, 10, (f0 :: found).
    - by rewrite Hs in Hcall. }
  destruct Hfound as (n & globPattern & maxResults & found & Hmax & Hw & ->).
  split; [|split].
  - apply Forall_forall. intros f Hf. by apply list_elem_of_filter in Hf as [? _].
  - by exists n, globPattern, maxResults, found.
  - intros Hresp. apply Hresp in Hw.
    pose proof (length_filter (λ f, isValidTestFile imports (uri imports f) = true) found).
    lia.
Qed.
End TestFiles.

Lemma unit_test_context_files_witness :
  fst (perform example_workspace_empty 0
         (getContextFilesForUnitTestCommand example_imports "src/a.ts"))
  = Fulfilled ["a.test.ts"; "b.test.ts"]
  ∧ Forall (λ f, isValidTestFile example_imports (uri example_imports f) = true)
      ["a.test.ts"; "b.test.ts"].
Proof.
  split; [reflexivity|].
  exact (proj1 (unit_test_context_files example_imports example_workspace_empty
                  "src/a.ts" ["a.test.ts"; "b.test.ts"] eq_refl)).
Defined.

(** The edge of the fallback on the examples: a current directory holding
    only a file that is no test file gives an empty result after one search,
    although the workspace has test files; an empty current directory makes
    the workspace searched. *)
Example no_fallback_on_invalid_files :
  perform example_workspace 0 (getContextFilesForUnitTestCommand example_imports "src/a.ts")
  = (Fulfilled [],
     [("src/a.ts", "**/*{e2e,integration,node_modules,dist}*/**", 10)])
  ∧ perform example_workspace_empty 0
      (getContextFilesForUnitTestCommand example_imports "src/a.ts")
    = (Fulfilled ["a.test.ts"; "b.test.ts"],
       [("src/a.ts", "**/*{e2e,integration,node_modules,dist}*/**", 10);
        ("**/*.test.*", "**/*{e2e,integration,node_modules,dist}*/**", 5)]).
Proof. split; reflexivity. Qed.

(** * Explaining terminal output *)

Section Terminal.
Implicit Types (s u v pattern : string) (c : ascii).

Lemma string_app_cons c s u : String c s +:+ u = String c (s +:+ u).
Proof. reflexivity. Qed.

Lemma string_app_nil_l s : "" +:+ s = s.
Proof. reflexivity. Qed.

Lemma string_app_assoc s u v : (s +:+ u) +:+ v = s +:+ (u +:+ v).
Proof.
  induction s as [|c s IH]; [done|]. rewrite !string_app_cons. by rewrite IH.
Qed.

Lemma string_app_nil_r s : s +:+ "" = s.
Proof. induction s as [|c s IH]; [done|]. rewrite string_app_cons. by rewrite IH. Qed.

Lemma lacks_app c u v : lacks c (u +:+ v) = lacks c u && lacks c v.
Proof.
  induction u as [|c' u IH]; [done|]. rewrite string_app_cons. simpl.
  rewrite IH. by rewrite andb_assoc.
Qed.

(** A replacement text without dollar sign is inserted as it is. *)
Lemma GetSubstitution_plain matched before after replacement :
  lacks "$" replacement = true →
  GetSubstitution matched before after replacement = replacement.
Proof.
  induction replacement as [|c rest IH]; simpl; [done|].
  intros [Hc Hrest]%andb_true_iff. apply negb_true_iff in Hc.
  rewrite Hc. by rewrite IH.
Qed.

(** A text in which the first character of the pattern does not occur is
    skipped by the search. *)
Lemma split_first_skip c pattern u s :
  lacks c u = true →
  split_first (String c pattern) (u +:+ s)
  = match split_first (String c pattern) s with
    | Some (before, after) => Some (u +:+ before, after)
    | None => None
    end.
Proof.
  induction u as [|c' u IH]; intros Hu.
  { rewrite string_app_nil_l.
    by destruct (split_first (String c pattern) s) as [[? ?]|]. }
  simpl in Hu. apply andb_true_iff in Hu as [Hc Hu].
  apply negb_true_iff, Ascii.eqb_neq in Hc.
  rewrite string_app_cons.
  cbn [split_first String.prefix].
  destruct (ascii_dec c c') as [->|_]; [done|].
  rewrite (IH Hu). by destruct (split_first (String c pattern) s) as [[? ?]|].
Qed.
(** The two replacements on the template, for a process name in which
    neither a dollar sign nor an opening brace occurs. *)
Lemma replace_process (process : string) :
  lacks "$" process = true →
  String_replace template "{{PROCESS}}" process
  = prompt_head +:+ process +:+ prompt_middle +:+ "{{OUTPUT}}" +:+ prompt_tail.
Proof.
  intros Hd. unfold String_replace.
  assert (Hsplit : split_first "{{PROCESS}}" template
                   = Some (prompt_head, prompt_middle +:+ "{{OUTPUT}}" +:+ prompt_tail))
    by reflexivity.
  rewrite Hsplit. by rewrite (GetSubstitution_plain _ _ _ _ Hd).
Qed.

Lemma replace_output (process output : string) :
  lacks "{" process = true →
  String_replace
    (prompt_head +:+ process +:+ prompt_middle +:+ "{{OUTPUT}}" +:+ prompt_tail)
    "{{OUTPUT}}" output
  = prompt_head +:+ process +:+ prompt_middle
    +:+ GetSubstitution "{{OUTPUT}}" (prompt_head +:+ process +:+ prompt_middle)
          prompt_tail output
    +:+ prompt_tail.
Proof.
  intros Hb. unfold String_replace.
  rewrite (split_first_skip "{" "{OUTPUT}}" prompt_head) by reflexivity.
  rewrite (split_first_skip "{" "{OUTPUT}}" process) by done.
  assert (Hsplit : split_first "{{OUTPUT}}" (prompt_middle +:+ "{{OUTPUT}}" +:+ prompt_tail)
                   = Some (prompt_middle, prompt_tail)) by reflexivity.
  rewrite Hsplit. by rewrite !string_app_assoc.
Qed.

(** X13. Every call first writes the debug line and records the two
    telemetry events, whatever the selection is.  After that, when there is
    no selection or the selection trims to the empty string, it is fulfilled
    with [undefined] without calling the chat.  Otherwise it calls
    [executeChat] exactly once, as a new chat of the user without context
    files and without enhanced context, and settles as that call does:
    fulfilled with the chat result holding the session, or rejected with the
    reason [executeChat] was rejected with. *)
Theorem explain_output_effects {Session} (imports : TerminalImports) (requestID : string)
    (chat : Settlement Session) (args : TerminalOutputArguments) :
  let source := DefaultChatCommands_Terminal imports in
  let telemetry :=
    [ logDebug "executeExplainOutput" "executing" args;
      telemetryService_log "CodyVSCodeExtension:command:terminal:executed" false
        requestID source;
      telemetryRecorder_recordEvent "cody.command.terminal" "executed" 0
        requestID requestID source ] in
  let blank :=
    match selection args with
    | None => true
    | Some text => String.eqb (trim imports text) ""
    end in
  if blank
  then executeExplainOutput imports requestID chat args = (telemetry, Fulfilled None)
  else ∃ prompt,
         executeExplainOutput imports requestID chat args
         = (telemetry ++ [executeChat prompt "user-newchat" [] false source],
            match chat with
            | Fulfilled session => Fulfilled (Some (chat_result session))
            | Rejected reason => Rejected reason
            end).
Proof.
  cbv zeta. unfold executeExplainOutput.
  destruct (selection args) as [text|]; simpl; [|done].
  destruct (String.eqb (trim imports text) ""); [done|]. by eexists.
Qed.

(** X14. The prompt sent to the chat, for a process name without dollar sign
    and opening brace: the head of the template, the process name, the
    middle of the template, the trimmed selection, the tail of the template,
    then a line with the creation options when their JSON text is not
    empty.  The trimmed selection goes through the replacement patterns of
    [String.prototype.replace]: it is inserted as it is when it has no dollar
    sign, and otherwise with [$$] read as one dollar sign, [$&] as the
    placeholder and the two quote patterns as the prompt before and after
    the placeholder. *)
Theorem explain_prompt {Session} (imports : TerminalImports) (requestID : string)
    (chat : Settlement Session) (args : TerminalOutputArguments) (output : string) :
  trim imports <$> selection args = Some output →
  output ≠ "" →
  lacks "$" (name args) = true →
  lacks "{" (name args) = true →
  let options :=
    JSON_stringify imports (default (mkCreationOptions None None) (creationOptions args)) in
  let inserted :=
    GetSubstitution "{{OUTPUT}}" (prompt_head +:+ name args +:+ prompt_middle)
      prompt_tail output in
  let text :=
    prompt_head +:+ name args +:+ prompt_middle +:+ inserted +:+ prompt_tail
    +:+ (if String.eqb options "" then "" else LF +:+ "Process options: " +:+ options) in
  last (fst (executeExplainOutput imports requestID chat args))
  = Some (executeChat text "user-newchat" [] false (DefaultChatCommands_Terminal imports))
  ∧ (lacks "$" output = true → inserted = output).
Proof.
  intros Hsel Hne Hd Hb. cbv zeta. unfold executeExplainOutput. rewrite Hsel.
  apply String.eqb_neq in Hne. rewrite Hne.
  rewrite (replace_process _ Hd), (replace_output _ _ Hb).
  cbn [fst snd]. rewrite last_snoc.
  split; [|apply GetSubstitution_plain].
  destruct (String.eqb (JSON_stringify imports _) ""); cbn [negb].
  - by rewrite string_app_nil_r.
  - by rewrite !string_app_assoc.
Qed.
End Terminal.

Lemma explain_prompt_witness :
  trim example_terminal <$> selection example_args = Some "npm ERR! code 1"
  ∧ "npm ERR! code 1" ≠ ""
  ∧ lacks "$" (name example_args) = true
  ∧ lacks "{" (name example_args) = true
  ∧ last (fst (executeExplainOutput example_terminal "id-1"
                 (Rejected "chat is closed" : Settlement unit) example_args))
    = Some (executeChat
              (prompt_head +:+ "zsh" +:+ prompt_middle +:+ "npm ERR! code 1"
               +:+ prompt_tail +:+ LF +:+ "Process options: {}")
              "user-newchat" [] false "terminal").
Proof.
  assert (Hne : "npm ERR! code 1" ≠ "") by discriminate.
  split; [reflexivity|]. split; [exact Hne|]. split; [reflexivity|]. split; [reflexivity|].
  exact (proj1 (explain_prompt example_terminal "id-1" (Rejected "chat is closed")
                  example_args "npm ERR! code 1" eq_refl Hne eq_refl eq_refl)).
Defined.

(** The replacement patterns at work: a process id written [$$] in the
    terminal output reaches the chat as a single dollar sign; a blank
    selection reaches no chat at all; a rejected chat rejects the call. *)
Example dollar_in_output :
  fst (executeExplainOutput example_terminal "id-2" (Fulfilled "session-1")
         (mkTerminalOutputArguments "bash" (Some "kill $$") None))
  = [ logDebug "executeExplainOutput" "executing"
        (mkTerminalOutputArguments "bash" (Some "kill $$") None);
      telemetryService_log "CodyVSCodeExtension:command:terminal:executed" false
        "id-2" "terminal";
      telemetryRecorder_recordEvent "cody.command.terminal" "executed" 0
        "id-2" "id-2" "terminal";
      executeChat
        (prompt_head +:+ "bash" +:+ prompt_middle +:+ "kill $" +:+ prompt_tail
         +:+ LF +:+ "Process options: {}")
        "user-newchat" [] false "terminal" ]
  ∧ snd (executeExplainOutput example_terminal "id-3" (Fulfilled "session-1")
           (mkTerminalOutputArguments "bash" (Some "   ") None))
    = Fulfilled None
  ∧ snd (executeExplainOutput example_terminal "id-4" (Fulfilled "session-1") example_args)
    = Fulfilled (Some (chat_result "session-1"))
  ∧ snd (executeExplainOutput example_terminal "id-5"
           (Rejected "chat is closed" : Settlement string) example_args)
    = Rejected "chat is closed".
Proof. repeat split; reflexivity. Qed.

(** * The table as an object *)

Section Objects.
Implicit Types (s : System) (js : JsSystem) (e : string) (f : FeatureFlag) (id : nat)
  (ev : Event).

Lemma not_named_like_member e :
  named_like_member e = false →
  e ≠ "__proto__" ∧ e ∉ Object_prototype_functions.
Proof.
  unfold named_like_member. intros [H1 H2]%orb_false_iff.
  by apply bool_decide_eq_false in H1, H2.
Qed.

(** While nothing has been written outside the table, a flag read through
    the prototype chain finds what the own properties hold: the inherited
    members have no flags. *)
Lemma lookup_flag_untouched s e f :
  lookup_flag (untouched_objects s) (lookup_table (untouched_objects s) e) f
  = featureFlags (this s) !! e ≫= (.!! FeatureFlag_value f).
Proof.
  unfold lookup_flag, lookup_table, untouched_objects. simpl.
  destruct (featureFlags (this s) !! e) as [record|] eqn:He; simpl.
  - rewrite He. simpl. by destruct (record !! FeatureFlag_value f).
  - repeat case_bool_decide; simpl; by rewrite ?lookup_empty.
Qed.

Lemma js_getFromCache_untouched s f (oe : option string) :
  js_getFromCache f oe (untouched_objects s)
  = (fst (getFromCache f oe s), untouched_objects (snd (getFromCache f oe s))).
Proof.
  unfold js_getFromCache, getFromCache, jbind, jret, bind, ret, lift, Get_table, Get_flag,
    Date_now, get_this, apiClient_endpoint, js_refreshFeatureFlags.
  destruct oe as [e|]; simpl; destruct (bool_decide _); simpl;
    f_equal; try done;
    first [ exact (lookup_flag_untouched (mkSystem _ _ _ _) _ f)
          | exact (lookup_flag_untouched s _ f) ].
Qed.

Lemma js_cached_untouched s f e : js_cached (untouched_objects s) f e = cached s f e.
Proof. unfold js_cached, cached. by rewrite js_getFromCache_untouched. Qed.

Lemma js_evaluateFeatureFlag_untouched s f :
  js_evaluateFeatureFlag f (untouched_objects s)
  = (fst (evaluateFeatureFlag f s), untouched_objects (snd (evaluateFeatureFlag f s))).
Proof.
  destruct (truthy (BENCHMARK_DISABLE_FEATURE_FLAGS (host s))) eqn:Hk.
  - rewrite (evaluateFeatureFlag_disabled _ _ Hk).
    unfold js_evaluateFeatureFlag, wrapInActiveSpan_J, jbind, lift, apiClient_endpoint,
      process_env_BENCHMARK_DISABLE_FEATURE_FLAGS. simpl. by rewrite Hk.
  - rewrite (evaluateFeatureFlag_enabled _ _ Hk). cbv zeta.
    unfold js_evaluateFeatureFlag, wrapInActiveSpan_J. unfold jbind at 1 2.
    unfold lift, apiClient_endpoint, process_env_BENCHMARK_DISABLE_FEATURE_FLAGS.
    simpl. rewrite Hk. unfold jbind. fold (untouched_objects s).
    rewrite js_getFromCache_untouched. unfold cached.
    by destruct (getFromCache f (Some (endpoint (host s))) s) as [[b|] s1].
Qed.

Lemma js_syncAuthStatus_untouched s :
  js_syncAuthStatus (untouched_objects s)
  = (fst (syncAuthStatus s), untouched_objects (snd (syncAuthStatus s))).
Proof. reflexivity. Qed.

Lemma lift_untouched {A} (c : M A) s :
  lift c (untouched_objects s) = (fst (c s), untouched_objects (snd (c s))).
Proof. unfold lift. simpl. by destruct (c s). Qed.

Lemma assign_flag_present s e f b (record : gmap string bool) :
  featureFlags (this s) !! e = Some record →
  assign_flag e f b s
  = (tt, mkSystem (mkProvider (<[e := <[FeatureFlag_value f := b]> record]>
                                 (featureFlags (this s)))
                     (lastUpdated (this s)))
           (host s) (requests s) (awaiting s)).
Proof.
  intros He. unfold assign_flag, assign_featureFlags, bind, get_this, set_this. simpl.
  by rewrite (alter_present _ _ _ _ He).
Qed.

Lemma read_back_untouched s e f :
  jbind (Get_table e) (λ x, jbind (Get_flag x f) (λ b, jret (Fulfilled (default false b))))
    (untouched_objects s)
  = (Fulfilled (default false (featureFlags (this s) !! e ≫= (.!! FeatureFlag_value f))),
     untouched_objects s).
Proof.
  unfold jbind, Get_table, Get_flag, jret. by rewrite lookup_flag_untouched.
Qed.

Lemma js_resume_evaluate_untouched s e f v :
  named_like_member e = false →
  js_evaluateFeatureFlag_resume e f (Fulfilled v) (untouched_objects s)
  = (Fulfilled (stored_flag v),
     untouched_objects
       (mkSystem
         (mkProvider
            (<[e := <[FeatureFlag_value f := stored_flag v]>
                      (default ∅ (featureFlags (this s) !! e))]> (featureFlags (this s)))
            (lastUpdated (this s)))
         (host s) (requests s) (awaiting s))).
Proof.
  intros [Hproto Hfun]%not_named_like_member.
  unfold js_evaluateFeatureFlag_resume. fold (stored_flag v).
  unfold jbind at 1. unfold Get_table at 1.
  unfold lookup_table at 1. cbn [sys untouched_objects table_prototype Object_prototype].
  destruct (featureFlags (this s) !! e) as [record|] eqn:He.
  - cbn [ToBoolean negb]. unfold jbind at 1. unfold jret at 1. unfold jbind at 1.
    unfold js_assign_flag at 1. unfold lookup_table at 1.
    cbn [sys untouched_objects]. rewrite He.
    rewrite lift_untouched, (assign_flag_present _ _ _ _ _ He). cbn [fst snd default].
    rewrite read_back_untouched. cbn [this featureFlags].
    rewrite lookup_insert_eq. cbn [mbind option_bind]. by rewrite lookup_insert_eq.
  - cbn [mbind option_bind]. rewrite !bool_decide_eq_false_2 by done.
    rewrite lookup_empty. cbn [ToBoolean negb]. unfold jbind at 1.
    unfold js_assign_endpoint_record at 1.
    cbn [sys untouched_objects table_prototype mbind option_bind]. rewrite He.
    rewrite bool_decide_eq_false_2 by done. rewrite lift_untouched.
    cbn [fst snd assign_endpoint_record].
    unfold jbind at 1. unfold js_assign_flag at 1. unfold lookup_table at 1.
    match goal with |- context [untouched_objects ?s'] => set (s1 := s') end.
    assert (He1 : featureFlags (this s1) !! e = Some ∅) by apply lookup_insert_eq.
    cbn [sys untouched_objects]. rewrite He1.
    rewrite lift_untouched, (assign_flag_present _ _ _ _ _ He1). cbn [fst snd default].
    rewrite read_back_untouched. cbn [this featureFlags].
    rewrite lookup_insert_eq. cbn [mbind option_bind]. rewrite lookup_insert_eq.
    unfold s1. simpl. by rewrite insert_insert_eq.
Qed.

Lemma js_resume_refresh_untouched s e d :
  e ≠ "__proto__" →
  js_refreshFeatureFlags_resume e (Fulfilled d) (untouched_objects s)
  = (Fulfilled tt,
     untouched_objects
       (mkSystem (mkProvider (<[e := stored_record d]> (featureFlags (this s)))
                    (now (host s)))
          (host s) (requests s) (awaiting s))).
Proof.
  intros Hproto. unfold js_refreshFeatureFlags_resume. fold (stored_record d).
  unfold jbind at 1. unfold js_assign_endpoint_record.
  cbn [sys untouched_objects table_prototype mbind option_bind].
  destruct (featureFlags (this s) !! e); [|rewrite bool_decide_eq_false_2 by done];
    rewrite lift_untouched; reflexivity.
Qed.

(** Settling a request whose continuation captured an endpoint that is not
    named like a member of [Object.prototype] does to the table as an object
    what it does to its own properties. *)
Lemma js_settle_untouched s id r :
  (∀ k, awaiting s !! id = Some k → named_like_member (captured_endpoint k) = false) →
  js_settle id r (untouched_objects s)
  = (fst (settle id r s), untouched_objects (snd (settle id r s))).
Proof.
  intros Hnamed.
  destruct (awaiting s !! id) as [[e f|e]|] eqn:Hk.
  - pose proof (Hnamed _ eq_refl) as He. simpl in He.
    destruct r as [[v|reason]|d].
    + rewrite (settle_evaluate_fulfilled _ _ _ _ _ Hk).
      unfold js_settle. cbn [sys untouched_objects table_prototype Object_prototype member_functions]. rewrite Hk.
      unfold jbind at 1.
      change (mkJs ?s' None ∅ ∅) with (untouched_objects s').
      by rewrite (js_resume_evaluate_untouched _ _ _ _ He).
    + rewrite (settle_evaluate_rejected _ _ _ _ _ Hk).
      unfold js_settle. cbn [sys untouched_objects table_prototype Object_prototype member_functions]. by rewrite Hk.
    + unfold js_settle, settle. cbn [sys untouched_objects table_prototype Object_prototype member_functions]. by rewrite Hk.
  - pose proof (Hnamed _ eq_refl) as He. simpl in He.
    apply not_named_like_member in He as [Hproto _].
    destruct r as [v|[d|reason]].
    + unfold js_settle, settle. cbn [sys untouched_objects table_prototype Object_prototype member_functions]. by rewrite Hk.
    + rewrite (settle_refresh_fulfilled _ _ _ _ Hk).
      unfold js_settle. cbn [sys untouched_objects table_prototype Object_prototype member_functions]. rewrite Hk.
      unfold jbind at 1.
      change (mkJs ?s' None ∅ ∅) with (untouched_objects s').
      by rewrite (js_resume_refresh_untouched _ _ _ Hproto).
    + rewrite (settle_refresh_rejected _ _ _ _ Hk).
      unfold js_settle. cbn [sys untouched_objects table_prototype Object_prototype member_functions]. by rewrite Hk.
  - unfold js_settle, settle. cbn [sys untouched_objects table_prototype Object_prototype member_functions]. rewrite Hk. by destruct r.
Qed.

Lemma js_step_untouched s ev :
  well_named s →
  js_step ev (untouched_objects s) = untouched_objects (step ev s).
Proof.
  intros [Hhost Hparked].
  destruct ev as [flagName oe|oe|flagName| |id0 r|e'|t|v]; simpl; try done.
  - by rewrite js_getFromCache_untouched.
  - by destruct oe.
  - by rewrite js_evaluateFeatureFlag_untouched.
  - rewrite js_settle_untouched; [done|]. intros k Hk. by apply (Hparked id0).
Qed.

(** A suspended body captured the endpoint configured when it was called. *)
Lemma step_captured s ev id (k : Continuation) :
  awaiting (step ev s) !! id = Some k →
  awaiting s !! id = Some k ∨ captured_endpoint k = endpoint (host s).
Proof.
  assert (Hrefresh : ∀ s0, awaiting (snd (refreshFeatureFlags s0)) !! id = Some k →
            awaiting s0 !! id = Some k ∨ captured_endpoint k = endpoint (host s0)).
  { intros s0. simpl. rewrite lookup_insert. case_decide; [|by left].
    intros [= <-]. by right. }
  assert (Hread : ∀ f oe, awaiting (snd (getFromCache f oe s)) !! id = Some k →
            awaiting s !! id = Some k ∨ captured_endpoint k = endpoint (host s)).
  { intros f oe. rewrite getFromCache_state.
    destruct (bool_decide _); [apply Hrefresh|by left]. }
  destruct ev as [flagName oe|oe|flagName| |id0 r|e'|t|v]; simpl;
    rewrite ?getExposedExperiments_state; [apply Hread|by left| | | |by left..].
  - destruct (truthy (BENCHMARK_DISABLE_FEATURE_FLAGS (host s))) eqn:Hkill.
    { rewrite (evaluateFeatureFlag_disabled _ _ Hkill). by left. }
    rewrite (evaluateFeatureFlag_enabled _ _ Hkill). cbv zeta.
    destruct (cached s flagName (endpoint (host s))); simpl; [apply Hread|].
    rewrite lookup_insert. case_decide; [intros [= <-]; by right|apply Hread].
  - apply (Hrefresh (snd (assign_featureFlags ∅ s))).
  - intros Hk. left.
    destruct (awaiting s !! id0) as [[e0 f0|e0]|] eqn:Hk0.
    + destruct r as [[v|reason]|d].
      * rewrite (settle_evaluate_fulfilled _ _ _ _ _ Hk0) in Hk. simpl in Hk.
        by apply lookup_delete_Some in Hk as [_ ?].
      * rewrite (settle_evaluate_rejected _ _ _ _ _ Hk0) in Hk. simpl in Hk.
        by apply lookup_delete_Some in Hk as [_ ?].
      * unfold settle in Hk. by rewrite Hk0 in Hk.
    + destruct r as [v|[d|reason]].
      * unfold settle in Hk. by rewrite Hk0 in Hk.
      * rewrite (settle_refresh_fulfilled _ _ _ _ Hk0) in Hk. simpl in Hk.
        by apply lookup_delete_Some in Hk as [_ ?].
      * rewrite (settle_refresh_rejected _ _ _ _ Hk0) in Hk. simpl in Hk.
        by apply lookup_delete_Some in Hk as [_ ?].
    + unfold settle in Hk. rewrite Hk0 in Hk. by destruct r.
Qed.

Lemma step_endpoint s ev :
  endpoint (host (step ev s))
  = match ev with host_endpoint e => e | _ => endpoint (host s) end.
Proof.
  destruct ev as [flagName oe|oe|flagName| |id0 r|e'|t|v]; simpl;
    rewrite ?getExposedExperiments_state; try done.
  - rewrite getFromCache_state. by destruct (bool_decide _).
  - destruct (truthy (BENCHMARK_DISABLE_FEATURE_FLAGS (host s))) eqn:Hk.
    { by rewrite (evaluateFeatureFlag_disabled _ _ Hk). }
    rewrite (evaluateFeatureFlag_enabled _ _ Hk). cbv zeta.
    destruct (cached s flagName (endpoint (host s))); simpl;
      rewrite getFromCache_state; by destruct (bool_decide _).
  - by rewrite (proj1 (settle_host_requests s id0 r)).
Qed.

Lemma step_well_named s ev :
  well_named s → plain_event ev = true → well_named (step ev s).
Proof.
  intros [Hhost Hparked] Hev. split.
  - rewrite step_endpoint. destruct ev; try done. simpl in Hev.
    by apply negb_true_iff in Hev.
  - intros id k Hk. destruct (step_captured _ _ _ _ Hk) as [Hold| ->]; [|done].
    by apply (Hparked id).
Qed.

(** The own properties of the table tell the whole story as long as no
    endpoint named like a member of [Object.prototype] is used: over any
    such run, the table as an object behaves as the table of its own
    properties, and nothing is written outside it. *)
Lemma js_run_untouched trace s :
  well_named s →
  forallb plain_event trace = true →
  js_run trace (untouched_objects s) = untouched_objects (run trace s)
  ∧ well_named (run trace s).
Proof.
  revert s. induction trace as [|ev trace IH]; intros s Hs Hq; [done|].
  simpl in Hq. apply andb_true_iff in Hq as [Hev Hq]. simpl.
  rewrite (js_step_untouched _ _ Hs). apply IH; [|done]. by apply step_well_named.
Qed.

Lemma boot_well_named (h : Host) :
  named_like_member (endpoint h) = false → well_named (boot h).
Proof. intros Hh. split; [done|]. intros id k. unfold boot. simpl. by rewrite lookup_empty. Qed.
End Objects.

(** * The provider on the table as an object *)

Section ObjectProperties.
Implicit Types (s : System) (js : JsSystem) (e : string) (f : FeatureFlag) (id : nat)
  (ev : Event).

Lemma js_getExposedExperiments_untouched s (oe : option string) :
  named_like_member (default (endpoint (host s)) oe) = false →
  js_getExposedExperiments oe (untouched_objects s)
  = (exposed_record (fst (getExposedExperiments oe s)), untouched_objects s).
Proof.
  intros [Hproto Hfun]%not_named_like_member.
  rewrite getExposedExperiments_spec.
  unfold js_getExposedExperiments, jbind, jret, lift, Get_table, apiClient_endpoint,
    lookup_table.
  destruct oe as [e|]; simpl in *.
  - destruct (featureFlags (this s) !! e) eqn:He; simpl; [by rewrite He|].
    by rewrite !bool_decide_eq_false_2, lookup_empty by done.
  - destruct (featureFlags (this s) !! endpoint (host s)) eqn:He; simpl; [by rewrite He|].
    by rewrite !bool_decide_eq_false_2, lookup_empty by done.
Qed.

Lemma js_exposed_untouched s e :
  named_like_member e = false →
  js_exposed (untouched_objects s) e = exposed_record (exposed s e).
Proof.
  intros He. unfold js_exposed, exposed.
  by rewrite (js_getExposedExperiments_untouched s (Some e) He).
Qed.

(** A hit: with the switch off and the entry cached, [evaluateFeatureFlag]
    is fulfilled at once and sends no single-flag request. *)
Lemma evaluateFeatureFlag_hit s f b :
  truthy (BENCHMARK_DISABLE_FEATURE_FLAGS (host s)) = false →
  cached s f (endpoint (host s)) = Some b →
  fst (evaluateFeatureFlag f s) = Settled (Fulfilled b)
  ∧ filter (λ c, negb (is_bulk c)) (requests (snd (evaluateFeatureFlag f s)))
    = filter (λ c, negb (is_bulk c)) (requests s).
Proof.
  intros Hoff Hc. rewrite (evaluateFeatureFlag_enabled _ _ Hoff). cbv zeta.
  rewrite Hc. split; [done|]. cbn [snd]. rewrite getFromCache_state.
  destruct (bool_decide _); [|done].
  rewrite refreshFeatureFlags_spec. cbn [snd requests].
  rewrite filter_app. simpl. by rewrite app_nil_r.
Qed.

(** An event that does not rewrite an entry leaves it as it is. *)
Lemma step_kept s ev e f :
  rewrites s ev e f = false →
  entry (step ev s) e (FeatureFlag_value f) = entry s e (FeatureFlag_value f).
Proof.
  intros Hr. pose proof (step_entry s ev e (FeatureFlag_value f)) as Hstep.
  assert (populates s ev e (FeatureFlag_value f) = false
          ∧ erases s ev e (FeatureFlag_value f) = false) as [Hp He].
  { destruct ev as [flagName oe|oe|flagName| |id0 r|e'|t|v]; simpl in *; try done.
    destruct (awaiting s !! id0) as [[e0 f0|e0]|]; [| |done].
    - by destruct r as [[v|reason]|d].
    - destruct r as [v|[d|reason]]; try done. by rewrite Hr. }
  by rewrite Hp, He in Hstep.
Qed.

Lemma run_kept trace s e f :
  kept trace s e f = true →
  entry (run trace s) e (FeatureFlag_value f) = entry s e (FeatureFlag_value f).
Proof.
  revert s. induction trace as [|ev trace IH]; intros s Hq; [done|].
  simpl in Hq. apply andb_true_iff in Hq as [Hev Hq]. apply negb_true_iff in Hev.
  simpl. rewrite (IH _ Hq). by apply step_kept.
Qed.

(** An entry that does not read [true] does not come to read [true] by an
    event that is not an answer saying [true] for it. *)
Lemma step_unanswered s ev e f :
  says_true s ev e f = false →
  entry s e (FeatureFlag_value f) ≠ Some true →
  entry (step ev s) e (FeatureFlag_value f) ≠ Some true.
Proof.
  unfold entry.
  destruct ev as [flagName oe|oe|flagName| |id0 r|e'|t|v]; simpl;
    rewrite ?getExposedExperiments_state, ?getFromCache_this,
      ?evaluateFeatureFlag_this; try done.
  destruct (awaiting s !! id0) as [[e0 f0|e0]|] eqn:Hk.
  - destruct r as [[v|reason]|d].
    + rewrite (settle_evaluate_fulfilled _ _ _ _ _ Hk). simpl.
      intros Hv Hs. rewrite lookup_insert. case_decide as He; [subst e0|done].
      simpl. rewrite lookup_insert. case_decide as Hf.
      * rewrite !bool_decide_eq_true_2 in Hv by done. simpl in Hv. by rewrite Hv.
      * by destruct (featureFlags (this s) !! e).
    + by rewrite (settle_evaluate_rejected _ _ _ _ _ Hk).
    + unfold settle. by rewrite Hk.
  - destruct r as [v|[d|reason]].
    + unfold settle. by rewrite Hk.
    + rewrite (settle_refresh_fulfilled _ _ _ _ Hk). simpl.
      intros Hd Hs. rewrite lookup_insert. case_decide as He; [subst e0|done].
      rewrite bool_decide_eq_true_2 in Hd by done. simpl in Hd.
      by apply bool_decide_eq_false in Hd.
    + by rewrite (settle_refresh_rejected _ _ _ _ Hk).
  - unfold settle. rewrite Hk. by destruct r.
Qed.

Lemma run_unanswered trace s e f :
  unanswered trace s e f = true →
  entry s e (FeatureFlag_value f) ≠ Some true →
  entry (run trace s) e (FeatureFlag_value f) ≠ Some true.
Proof.
  revert s. induction trace as [|ev trace IH]; intros s Hq Hs; [done|].
  simpl in Hq. apply andb_true_iff in Hq as [Hev Hq]. apply negb_true_iff in Hev.
  simpl. apply IH; [done|]. by apply step_unanswered.
Qed.

(** C1, as the code has it, on a provider none of whose endpoints is named
    like a member of [Object.prototype] and around whose table nothing has
    been written.  [syncAuthStatus] replaces the table by an empty one
    before anything else and parks on the bulk request for the endpoint
    current at the call.  Whatever happens until that request settles with a
    value, [syncAuthStatus] then completes and the reads for that endpoint
    return exactly the bulk result.  When no other request settles while
    [syncAuthStatus] is pending, the table holds this record and nothing
    else, whatever it held before the call, and nothing is written outside
    the table: [getFromCache] reads from the bulk result for that endpoint
    and is undefined for every other, and [getExposedExperiments] returns
    the bulk result for that endpoint and the empty record for any other
    endpoint not named like a member of [Object.prototype]. *)
Theorem syncAuthStatus_resets_table s trace d :
  well_named s →
  forallb plain_event trace = true →
  forallb (λ ev, negb (settles (length (requests s)) ev)) trace = true →
  let id := length (requests s) in
  let current := endpoint (host s) in
  let answer := getEvaluatedFeatureFlags_response (Fulfilled d) in
  let js1 := snd (js_syncAuthStatus (untouched_objects s)) in
  let js2 := js_step (request_settles id answer) (js_run trace js1) in
  fst (js_syncAuthStatus (untouched_objects s)) = Pending id
  ∧ featureFlags (this (sys js1)) = ∅
  ∧ fst (js_settle id answer (js_run trace js1))
    = Some (refreshFeatureFlags_settled (Fulfilled tt))
  ∧ js_exposed js2 current = exposed_record (stored_record d)
  ∧ (∀ f, js_cached js2 f current = stored_record d !! FeatureFlag_value f)
  ∧ (forallb (λ ev, negb (is_settling ev)) trace = true →
     featureFlags (this (sys js2)) = {[ current := stored_record d ]}
     ∧ js2 = untouched_objects (sys js2)
     ∧ (∀ f e, js_cached js2 f e
               = if decide (e = current)
                 then stored_record d !! FeatureFlag_value f else None)
     ∧ (∀ e, named_like_member e = false →
             js_exposed js2 e
             = exposed_record (if decide (e = current) then stored_record d else ∅))).
Proof.
  intros Hs Hplain Hq. cbv zeta.
  rewrite js_syncAuthStatus_untouched. cbn [fst snd].
  assert (Hs1 : well_named (snd (syncAuthStatus s)))
    by exact (step_well_named s call_syncAuthStatus Hs eq_refl).
  destruct (js_run_untouched trace _ Hs1 Hplain) as [-> Hs2].
  rewrite (js_step_untouched _ _ Hs2).
  rewrite js_settle_untouched by (intros k Hk; by apply (proj2 Hs2 (length (requests s)))).
  destruct (syncAuthStatus_own_properties s trace d Hq) as (H1 & H2 & H3 & H4 & H5).
  cbv zeta in *.
  split; [done|]. split; [done|]. split; [done|].
  split; [|split].
  - rewrite (js_exposed_untouched _ _ (proj1 Hs)). unfold exposed.
    rewrite getExposedExperiments_spec. cbn [fst]. by rewrite H4.
  - intros f. rewrite js_cached_untouched, cached_entry. unfold entry. by rewrite H4.
  - intros Hquiet. destruct (H5 Hquiet) as (H6 & H7 & H8).
    split; [done|]. split; [done|]. split.
    + intros f e. rewrite js_cached_untouched. apply H8.
    + intros e He. rewrite (js_exposed_untouched _ _ He). by rewrite H7.
Qed.

Lemma syncAuthStatus_resets_table_witness :
  forallb plain_event [host_clock 1700000000500] = true
  ∧ forallb (λ ev, negb (settles (length (requests warm)) ev))
      [host_clock 1700000000500] = true
  ∧ featureFlags
      (this (sys (js_step (request_settles (length (requests warm))
                             (getEvaluatedFeatureFlags_response (Fulfilled flags_xy)))
                    (js_run [host_clock 1700000000500]
                       (snd (js_syncAuthStatus (untouched_objects warm)))))))
    = {[ endpoint (host warm) := stored_record flags_xy ]}.
Proof.
  split; [reflexivity|]. split; [reflexivity|].
  exact (proj1 (proj2 (proj2 (proj2 (proj2 (proj2
    (syncAuthStatus_resets_table warm [host_clock 1700000000500] flags_xy
       (proj2 (js_run_untouched warm_trace (boot host_a)
                 (boot_well_named host_a eq_refl) eq_refl))
       eq_refl eq_refl))))) eq_refl)).
Defined.

(** As long as neither endpoint is named like a member of
    [Object.prototype], the entries of one endpoint are out of reach of the
    other: whatever settles for a continuation that captured [e1] leaves
    every read for [e2] as it was. *)
Lemma endpoints_partition_table s id r (k : Continuation) e2 :
  well_named s →
  awaiting s !! id = Some k →
  captured_endpoint k ≠ e2 →
  (∀ f, js_cached (js_step (request_settles id r) (untouched_objects s)) f e2
        = js_cached (untouched_objects s) f e2)
  ∧ (named_like_member e2 = false →
     js_exposed (js_step (request_settles id r) (untouched_objects s)) e2
     = js_exposed (untouched_objects s) e2).
Proof.
  intros Hs Hk Hne. rewrite (js_step_untouched _ _ Hs).
  destruct (own_properties_partition s id r k (captured_endpoint k) e2 Hk eq_refl Hne)
    as (_ & Hc & He & _).
  split.
  - intros f. rewrite !js_cached_untouched. apply Hc.
  - intros H2. rewrite !(js_exposed_untouched _ _ H2). by rewrite He.
Qed.

(** Moving the host to another endpoint writes nothing, whatever lies around
    the table: every read with an explicit endpoint answers as before. *)
Lemma switching_endpoint_keeps_reads js e' :
  this (sys (js_step (host_endpoint e') js)) = this (sys js)
  ∧ table_prototype (js_step (host_endpoint e') js) = table_prototype js
  ∧ Object_prototype (js_step (host_endpoint e') js) = Object_prototype js
  ∧ member_functions (js_step (host_endpoint e') js) = member_functions js
  ∧ (∀ f e, js_cached (js_step (host_endpoint e') js) f e = js_cached js f e)
  ∧ (∀ e, js_exposed (js_step (host_endpoint e') js) e = js_exposed js e).
Proof.
  repeat split; try done.
  intros f e. unfold js_cached, js_getFromCache, jbind, jret, lift, Get_table, Get_flag,
    Date_now, get_this, js_refreshFeatureFlags. simpl.
  by destruct (bool_decide _).
Qed.

(** C2 fails on the code for an endpoint named [__proto__].  A flag is
    evaluated under that endpoint and answered [true]:
    [this.featureFlags[endpoint]] is then [Object.prototype], which is
    truthy, so no record is created and the flag is assigned on
    [Object.prototype] itself.  Endpoint c has never seen this flag: its
    record holds another flag only.  Still [getFromCache] returns [true] for
    the flag under endpoint c, since the record of endpoint c inherits it;
    before endpoint c had a record the same read was undefined.  The value
    also outlives [syncAuthStatus], which replaces the table and leaves
    [Object.prototype] as it is. *)
Theorem prototype_endpoint_leaks :
  let js := js_run prototype_leak (js_boot host_proto) in
  endpoint (host_proto) = "__proto__"
  ∧ fst (js_settle 1 (evaluateFeatureFlag_response (Fulfilled (flag_boolean true)))
           (js_step (call_evaluateFeatureFlag CodyProJetBrains) (js_boot host_proto)))
    = Some (evaluateFeatureFlag_settled (Fulfilled true))
  ∧ Object_prototype js = {[ "cody-pro-jetbrains" := true ]}
  ∧ featureFlags (this (sys js)) = {[ "https://c" := {[ "cody-command-hints" := false ]} ]}
  ∧ js_cached (js_run (take 4 prototype_leak) (js_boot host_proto))
      CodyProJetBrains "https://c" = None
  ∧ js_cached js CodyProJetBrains "https://c" = Some true
  ∧ js_cached (js_step call_syncAuthStatus js) CodyProJetBrains "__proto__" = Some true.
Proof. cbv zeta. repeat split; vm_compute; reflexivity. Qed.

(** C4, as the code has it.  On a provider run from its construction with
    no endpoint named like a member of [Object.prototype],
    [getFromCache(F, E)] is undefined exactly when the entry is not
    populated according to its history: it is populated by a single-flag
    evaluation for (E, F) that settles with a value and by a bulk fetch for
    E whose record holds F, and it is un-populated again by [syncAuthStatus]
    and by a bulk fetch for E that settles with an error value or with a
    record lacking F, since a bulk fetch replaces the whole record of E. *)
Theorem undefined_iff_unpopulated (h : Host) trace f e :
  named_like_member (endpoint h) = false →
  forallb plain_event trace = true →
  js_cached (js_run trace (js_boot h)) f e = None
  ↔ populated trace (boot h) e (FeatureFlag_value f) false = false.
Proof.
  intros Hh Hplain. unfold js_boot.
  destruct (js_run_untouched trace _ (boot_well_named h Hh) Hplain) as [-> _].
  rewrite js_cached_untouched. apply own_entry_absent_iff_unpopulated.
Qed.

Lemma undefined_iff_unpopulated_witness :
  named_like_member (endpoint host_a) = false
  ∧ forallb plain_event refresh_failed = true
  ∧ populated refresh_failed (boot host_a) "https://a"
      (FeatureFlag_value CodyProJetBrains) false = false
  ∧ js_cached (js_run refresh_failed (js_boot host_a)) CodyProJetBrains "https://a" = None.
Proof.
  split; [reflexivity|]. split; [reflexivity|]. split; [reflexivity|].
  exact (proj2 (undefined_iff_unpopulated host_a refresh_failed CodyProJetBrains
                  "https://a" eq_refl eq_refl) eq_refl).
Defined.

(** X2. Once a single-flag evaluation has settled with a value, the entry
    holds the stored value ([false] for [null] and [Error] answers) for as
    long as nothing rewrites it: no [syncAuthStatus], no bulk fetch for the
    endpoint settling with a value, no other evaluation of the entry
    settling with a value.  Until then [getFromCache] returns the stored
    value, and evaluating the flag again under that endpoint, the switch
    being off, is answered from the cache at once and sends no single-flag
    request.  This is on a provider none of whose endpoints is named like a
    member of [Object.prototype]. *)
Theorem evaluation_stays_cached s id e f v after :
  well_named s →
  awaiting s !! id = Some (evaluateFeatureFlag_awaiting e f) →
  forallb plain_event after = true →
  let answer := request_settles id (evaluateFeatureFlag_response (Fulfilled v)) in
  kept after (step answer s) e f = true →
  let js := js_run (answer :: after) (untouched_objects s) in
  js_cached js f e = Some (stored_flag v)
  ∧ (endpoint (host (sys js)) = e →
     truthy (BENCHMARK_DISABLE_FEATURE_FLAGS (host (sys js))) = false →
     fst (js_evaluateFeatureFlag f js) = Settled (Fulfilled (stored_flag v))
     ∧ filter (λ c, negb (is_bulk c)) (requests (sys (snd (js_evaluateFeatureFlag f js))))
       = filter (λ c, negb (is_bulk c)) (requests (sys js))).
Proof.
  intros Hs Hk Hplain. cbv zeta. intros Hkept.
  destruct (js_run_untouched (request_settles id (evaluateFeatureFlag_response (Fulfilled v))
                                :: after) s Hs Hplain) as [-> _].
  assert (Hc : ∀ s', s' = run (request_settles id (evaluateFeatureFlag_response (Fulfilled v))
                                 :: after) s →
               cached s' f e = Some (stored_flag v)).
  { intros s' ->. rewrite cached_entry. cbn [run]. rewrite (run_kept _ _ _ _ Hkept).
    unfold entry, step. rewrite (settle_evaluate_fulfilled _ _ _ _ _ Hk).
    cbn [snd this featureFlags]. rewrite lookup_insert_eq. simpl.
    by rewrite lookup_insert_eq. }
  split; [rewrite js_cached_untouched; by apply Hc|].
  cbn [sys untouched_objects]. intros He Hoff.
  rewrite js_evaluateFeatureFlag_untouched. cbn [fst snd sys untouched_objects].
  apply evaluateFeatureFlag_hit; [done|]. rewrite He. by apply Hc.
Qed.

Lemma evaluation_stays_cached_witness :
  awaiting (step (call_evaluateFeatureFlag CodyProJetBrains) (boot host_a)) !! 1%nat
  = Some (evaluateFeatureFlag_awaiting "https://a" CodyProJetBrains)
  ∧ forallb plain_event two_reads = true
  ∧ kept two_reads
      (step (request_settles 1
               (evaluateFeatureFlag_response (Fulfilled (flag_Error "HTTP 500"))))
         (step (call_evaluateFeatureFlag CodyProJetBrains) (boot host_a)))
      "https://a" CodyProJetBrains = true
  ∧ js_cached
      (js_run (request_settles 1
                 (evaluateFeatureFlag_response (Fulfilled (flag_Error "HTTP 500")))
               :: two_reads)
         (untouched_objects (step (call_evaluateFeatureFlag CodyProJetBrains) (boot host_a))))
      CodyProJetBrains "https://a"
    = Some (stored_flag (flag_Error "HTTP 500")).
Proof.
  split; [reflexivity|]. split; [reflexivity|]. split; [reflexivity|].
  exact (proj1 (evaluation_stays_cached
    (step (call_evaluateFeatureFlag CodyProJetBrains) (boot host_a)) 1 "https://a"
    CodyProJetBrains (flag_Error "HTTP 500") two_reads
    (step_well_named _ (call_evaluateFeatureFlag CodyProJetBrains)
       (boot_well_named host_a eq_refl) eq_refl)
    eq_refl eq_refl eq_refl)).
Defined.

(** X3. The members of [FeatureFlag] have pairwise distinct keys, so a
    settled single-flag evaluation writes the entry of its own flag and of no
    other: for any other flag, every cached read answers as before, under
    every endpoint.  This is on a provider none of whose endpoints is named
    like a member of [Object.prototype]. *)
Theorem evaluation_writes_own_flag s id e f r f' :
  well_named s →
  awaiting s !! id = Some (evaluateFeatureFlag_awaiting e f) →
  f' ≠ f →
  ∀ e', js_cached (js_step (request_settles id r) (untouched_objects s)) f' e'
        = js_cached (untouched_objects s) f' e'.
Proof.
  intros Hs Hk Hne e'. rewrite (js_step_untouched _ _ Hs), !js_cached_untouched.
  by apply (own_flag_written s id e f).
Qed.

Lemma evaluation_writes_own_flag_witness :
  awaiting (step (call_evaluateFeatureFlag CodyCommandHints) warm) !! 3%nat
  = Some (evaluateFeatureFlag_awaiting "https://a" CodyCommandHints)
  ∧ CodyProJetBrains ≠ CodyCommandHints
  ∧ js_cached
      (js_step (request_settles 3
                  (evaluateFeatureFlag_response (Fulfilled (flag_boolean false))))
         (untouched_objects (step (call_evaluateFeatureFlag CodyCommandHints) warm)))
      CodyProJetBrains "https://a"
    = js_cached (untouched_objects (step (call_evaluateFeatureFlag CodyCommandHints) warm))
        CodyProJetBrains "https://a".
Proof.
  assert (Hne : CodyProJetBrains ≠ CodyCommandHints) by discriminate.
  split; [reflexivity|]. split; [exact Hne|].
  exact (evaluation_writes_own_flag
    (step (call_evaluateFeatureFlag CodyCommandHints) warm) 3 "https://a"
    CodyCommandHints (evaluateFeatureFlag_response (Fulfilled (flag_boolean false)))
    CodyProJetBrains
    (proj2 (js_run_untouched (warm_trace ++ [call_evaluateFeatureFlag CodyCommandHints])
              (boot host_a) (boot_well_named host_a eq_refl) eq_refl))
    eq_refl Hne "https://a").
Defined.

(** X8. On a provider around whose table nothing has been written, and for
    an endpoint (given, or the configured one by default) not named like a
    member of [Object.prototype], the two read methods agree:
    [getExposedExperiments] returns a record, and for every flag
    [getFromCache] returns what this record holds under the flag's key
    (undefined when the record lacks it or the endpoint has no record);
    neither of them modifies the provider. *)
Theorem reads_agree s f (oe : option string) :
  named_like_member (default (endpoint (host s)) oe) = false →
  ∃ record,
    fst (js_getExposedExperiments oe (untouched_objects s)) = exposed_record record
    ∧ fst (js_getFromCache f oe (untouched_objects s)) = record !! FeatureFlag_value f
    ∧ this (sys (snd (js_getFromCache f oe (untouched_objects s)))) = this s
    ∧ snd (js_getExposedExperiments oe (untouched_objects s)) = untouched_objects s.
Proof.
  intros He. exists (fst (getExposedExperiments oe s)).
  rewrite (js_getExposedExperiments_untouched _ _ He), js_getFromCache_untouched.
  cbn [fst snd sys untouched_objects].
  destruct (own_reads_agree s f oe) as (H1 & H2 & _). done.
Qed.

Lemma reads_agree_witness :
  named_like_member (default (endpoint (host warm)) None) = false
  ∧ ∃ record,
      fst (js_getExposedExperiments None (untouched_objects warm)) = exposed_record record
      ∧ fst (js_getFromCache CodyProJetBrains None (untouched_objects warm))
        = record !! FeatureFlag_value CodyProJetBrains.
Proof.
  split; [reflexivity|].
  destruct (reads_agree warm CodyProJetBrains None eq_refl) as (record & H1 & H2 & _).
  exists record. exact (conj H1 H2).
Defined.

(** X15. The provider never makes up an enabled flag.  On a provider none of
    whose endpoints is named like a member of [Object.prototype], over any
    sequence of calls, settlements and host changes in which no answer of
    the remote side says [true] for the entry (no single-flag evaluation of
    this flag made under this endpoint answered [true], no bulk fetch made
    under this endpoint answered with a record holding the flag as [true]),
    an entry that did not read [true] does not come to read [true]: [null],
    error values, rejections, missing keys, and answers for other flags or
    other endpoints never turn a flag on. *)
Theorem never_on_unless_answered trace s e f :
  well_named s →
  forallb plain_event trace = true →
  unanswered trace s e f = true →
  js_cached (untouched_objects s) f e ≠ Some true →
  js_cached (js_run trace (untouched_objects s)) f e ≠ Some true.
Proof.
  intros Hs Hplain Hq.
  destruct (js_run_untouched trace s Hs Hplain) as [-> _].
  rewrite !js_cached_untouched, !cached_entry. by apply run_unanswered.
Qed.

Lemma never_on_unless_answered_witness :
  forallb plain_event busy_day = true
  ∧ unanswered busy_day (boot host_a) "https://b" CodyProJetBrains = true
  ∧ js_cached (js_boot host_a) CodyProJetBrains "https://b" ≠ Some true
  ∧ js_cached (js_run busy_day (js_boot host_a)) CodyProJetBrains "https://b" ≠ Some true.
Proof.
  assert (Hs : js_cached (js_boot host_a) CodyProJetBrains "https://b" ≠ Some true)
    by discriminate.
  split; [reflexivity|]. split; [reflexivity|]. split; [exact Hs|].
  exact (never_on_unless_answered busy_day (boot host_a) "https://b" CodyProJetBrains
           (boot_well_named host_a eq_refl) eq_refl eq_refl Hs).
Defined.
End ObjectProperties.
